(** * SMART Tag integration: the API client and the route averaging

    A shallow embedding of [custom_components/smart_tag/api.py] (the
    [SmartTagApiClient] with its token state and error classification) and of
    the route averaging of [custom_components/smart_tag/config_flow.py]
    ([average_route_polling_data] and the grouping by route id done in
    [async_step_choose_times]). *)

From Stdlib Require Import ZArith Bool List String Ascii Permutation Lia.
From Stdlib Require Import QArith Qfield.
From Stdlib Require Import PrimFloat Uint63.
Import ListNotations.

Open Scope Z_scope.
Set Warnings "-register-all".

(** ** Python values and exceptions *)

(** The exceptions that can leave the code modelled here.  The first three
    are the classes of api.py ([SmartTagApiNetworkError] and
    [SmartTagApiAuthError] subclass [SmartTagApiError]); the others are
    built-in exceptions raised by unguarded code.  [JsonDecodeError] stands
    for what [await response.json()] raises on a body that is not JSON. *)
Inductive exn :=
| SmartTagApiError
| SmartTagApiNetworkError
| SmartTagApiAuthError
| KeyError
| TypeError
| IndexError
| OverflowError
| JsonDecodeError.

Definition is_smart_tag_error (e : exn) : bool :=
  match e with
  | SmartTagApiError | SmartTagApiNetworkError | SmartTagApiAuthError => true
  | _ => false
  end.

(** Decoded JSON values; [JNull] is Python's [None]. *)
Inductive json :=
| JNull
| JBool (b : bool)
| JNum (z : Z)
| JStr (s : string)
| JArr (l : list json)
| JObj (kvs : list (string * json)).

(** A dict built by [json.loads] keeps the last value of a repeated key. *)
Fixpoint assoc_last (k : string) (kvs : list (string * json)) : option json :=
  match kvs with
  | [] => None
  | (k', v) :: rest =>
      match assoc_last k rest with
      | Some v' => Some v'
      | None => if String.eqb k k' then Some v else None
      end
  end.

(** [value[key]] with a string key. *)
Definition getitem (j : json) (k : string) : exn + json :=
  match j with
  | JObj kvs =>
      match assoc_last k kvs with
      | Some v => inr v
      | None => inl KeyError
      end
  | _ => inl TypeError
  end.

(** The keys of a dict, in insertion order. *)
Definition dict_keys (kvs : list (string * json)) : list string :=
  fold_left (fun acc kv => if existsb (String.eqb (fst kv)) acc then acc
                           else acc ++ [fst kv]) kvs [].

(** [for d in value]: lists give their items, dicts their keys, strings
    their characters; other values are not iterable. *)
Definition py_iter (j : json) : exn + list json :=
  match j with
  | JArr l => inr l
  | JObj kvs => inr (map JStr (dict_keys kvs))
  | JStr s => inr (map (fun c => JStr (String c EmptyString)) (list_ascii_of_string s))
  | _ => inl TypeError
  end.

(** A list comprehension whose body may raise: the first exception wins. *)
Fixpoint map_result {A B : Type} (f : A -> exn + B) (l : list A) : exn + list B :=
  match l with
  | [] => inr []
  | x :: rest =>
      match f x with
      | inl e => inl e
      | inr y =>
          match map_result f rest with
          | inl e => inl e
          | inr ys => inr (y :: ys)
          end
      end
  end.

(** Python [str] values (JSON strings, cookie values) are represented by
    their UTF-8 encoding, one [ascii] per byte. *)
Definition hex_digit (c : ascii) : option nat :=
  let n := nat_of_ascii c in
  if (48 <=? n)%nat && (n <=? 57)%nat then Some (n - 48)%nat
  else if (65 <=? n)%nat && (n <=? 70)%nat then Some (n - 55)%nat
  else if (97 <=? n)%nat && (n <=? 102)%nat then Some (n - 87)%nat
  else None.

(** [urllib.parse.unquote_to_bytes] on an ASCII string: each [%XY] with two
    hex digits becomes the byte [0xXY], any other ['%'] is kept as it is. *)
Fixpoint unquote_to_bytes (l : list ascii) : list ascii :=
  match l with
  | [] => []
  | c :: rest =>
      if Ascii.eqb c "%"%char then
        match rest with
        | h1 :: h2 :: rest' =>
            match hex_digit h1, hex_digit h2 with
            | Some a, Some b => ascii_of_nat (16 * a + b) :: unquote_to_bytes rest'
            | _, _ => c :: unquote_to_bytes rest
            end
        | _ => c :: unquote_to_bytes rest
        end
      else c :: unquote_to_bytes rest
  end.

(** [bytes.decode("utf-8", "replace")], with the resulting [str] written back
    in UTF-8: a well-formed sequence is kept, and each maximal prefix of a
    well-formed sequence that cannot be completed, as well as each byte that
    cannot start one, becomes U+FFFD (EF BF BD).  [utf8_lead] gives, for a
    lead byte, the range of the second byte and the number of further
    continuation bytes (80..BF). *)
Definition byte_in (lo hi : nat) (c : ascii) : bool :=
  ((lo <=? nat_of_ascii c) && (nat_of_ascii c <=? hi))%nat.

Definition utf8_lead (n : nat) : option (nat * nat * nat) :=
  (if (194 <=? n) && (n <=? 223) then Some (128, 191, 0)
  else if n =? 224 then Some (160, 191, 1)
  else if (225 <=? n) && (n <=? 236) then Some (128, 191, 1)
  else if n =? 237 then Some (128, 159, 1)
  else if (238 <=? n) && (n <=? 239) then Some (128, 191, 1)
  else if n =? 240 then Some (144, 191, 2)
  else if (241 <=? n) && (n <=? 243) then Some (128, 191, 2)
  else if n =? 244 then Some (128, 143, 2)
  else None)%nat.

Definition replacement_char : list ascii :=
  [ascii_of_nat 239%nat; ascii_of_nat 191%nat; ascii_of_nat 189%nat].

Fixpoint utf8_decode_replace (l : list ascii) : list ascii :=
  match l with
  | [] => []
  | c :: t =>
      if (nat_of_ascii c <? 128)%nat then c :: utf8_decode_replace t else
      match utf8_lead (nat_of_ascii c) with
      | None => replacement_char ++ utf8_decode_replace t
      | Some (lo, hi, k) =>
          match t with
          | [] => replacement_char
          | c2 :: t2 =>
              if negb (byte_in lo hi c2) then replacement_char ++ utf8_decode_replace t
              else match k with
              | O => c :: c2 :: utf8_decode_replace t2
              | _ =>
                  match t2 with
                  | [] => replacement_char
                  | c3 :: t3 =>
                      if negb (byte_in 128%nat 191%nat c3) then replacement_char ++ utf8_decode_replace t2
                      else match k with
                      | S O => c :: c2 :: c3 :: utf8_decode_replace t3
                      | _ =>
                          match t3 with
                          | [] => replacement_char
                          | c4 :: t4 =>
                              if negb (byte_in 128%nat 191%nat c4)
                              then replacement_char ++ utf8_decode_replace t3
                              else c :: c2 :: c3 :: c4 :: utf8_decode_replace t4
                          end
                      end
                  end
              end
          end
      end
  end.

(** [unquote(string)] splits the string into maximal runs of ASCII
    characters ([_asciire.split]); each run goes through [unquote_to_bytes]
    and is decoded, the other characters are kept.  [run] is the ASCII run
    read so far. *)
Fixpoint unquote_runs (run : list ascii) (l : list ascii) : list ascii :=
  match l with
  | [] => utf8_decode_replace (unquote_to_bytes run)
  | c :: rest =>
      if (nat_of_ascii c <? 128)%nat then unquote_runs (run ++ [c]) rest
      else utf8_decode_replace (unquote_to_bytes run) ++ c :: unquote_runs [] rest
  end.

(** [urllib.parse.unquote(string)] with its defaults [encoding="utf-8"] and
    [errors="replace"]; a string without ['%'] is returned as it is. *)
Definition unquote (s : string) : string :=
  let l := list_ascii_of_string s in
  if existsb (fun c => Ascii.eqb c "%"%char) l then string_of_list_ascii (unquote_runs [] l)
  else s.

(** ** data.py *)

(** [Student.from_dict]: the fields are read in this order; a missing key
    raises [KeyError], a value that is not a dict [TypeError]. *)
Record Student := {
  campus : json;
  external_id : json;
  full_name : json;
  student_id : json;
  grade : json
}.

Definition Student_from_dict (value : json) : exn + Student :=
  match getitem value "campus", getitem value "externalId",
        getitem value "fullName", getitem value "id", getitem value "grade" with
  | inl e, _, _, _, _ | _, inl e, _, _, _ | _, _, inl e, _, _
  | _, _, _, inl e, _ | _, _, _, _, inl e => inl e
  | inr c, inr x, inr f, inr i, inr g =>
      inr {| campus := c; external_id := x; full_name := f;
             student_id := i; grade := g |}
  end.

(** An aware [datetime], as [strptime(...).astimezone()] produces it: its
    local wall-clock reading in microseconds since 0001-01-01 00:00:00, and
    its UTC offset in microseconds. *)
Record datetime := {
  wall_us : Z;
  utcoffset_us : Z
}.

Record RideEndpoint := {
  time : datetime;
  lat : float;
  long : float
}.

Record Ride := {
  ride_id : Z;
  bus_id : string;
  start : RideEndpoint;
  end_ : RideEndpoint;
  driver : string;
  shift : string;
  route_id : Z;
  route_name : string
}.

(** ** api.py: client state, requests and the session *)

(** The two token attributes of [SmartTagApiClient]; [JNull] is [None]. *)
Record client := {
  access_token : json;
  refresh_token : json
}.

Definition is_None (v : json) : bool :=
  match v with JNull => true | _ => false end.

(** A request handed to [session.request]: [req_headers] is [None] when the
    call passes [headers=None], and [Some t] for the header
    [Authorization: Bearer <t>]. *)
Record request := {
  req_method : string;
  req_path : string;
  req_query : list (string * json);
  req_headers : option json;
  req_data : option json
}.

(** A response: its status, its body decoded as JSON ([None] when
    [response.json()] fails), and the raw value of its [refreshToken]
    cookie, if it sets one. *)
Record response := {
  status : Z;
  body : option json;
  cookie_refresh : option string
}.

Definition ok (r : response) : bool := status r <? 400.

(** What [await self._session.request(...)] does: return a response, or
    raise [TimeoutError] (the 10 s [async_timeout] included), an
    [aiohttp.ClientError], a [socket.gaierror], or any other exception. *)
Inductive outcome :=
| Response (r : response)
| Timeout
| ClientErr
| Gaierror
| OtherExc.

(** The exceptions that can be raised inside the [try] of [_api_wrapper]. *)
Inductive raised :=
| RTimeoutError
| RClientError
| RGaierror
| RSmartTagApiAuthError
| ROther.

(** [_raise_response_error]; [response.raise_for_status()] raises
    [aiohttp.ClientResponseError], a subclass of [aiohttp.ClientError], when
    the status is 400 or more. *)
Definition raise_response_error (r : response) : option raised :=
  if (status r =? 401) || (status r =? 403) then Some RSmartTagApiAuthError
  else if negb ((status r =? 400) || (status r =? 404)) then
    if ok r then None else Some RClientError
  else None.

(** The [except] clauses of [_api_wrapper], tried in order:
    [TimeoutError], then [(aiohttp.ClientError, socket.gaierror)], then
    [Exception]. *)
Definition except_clauses (x : raised) : exn :=
  match x with
  | RTimeoutError => SmartTagApiNetworkError
  | RClientError | RGaierror => SmartTagApiNetworkError
  | RSmartTagApiAuthError | ROther => SmartTagApiError
  end.

Definition session_result (o : outcome) : raised + response :=
  match o with
  | Response r => inr r
  | Timeout => inl RTimeoutError
  | ClientErr => inl RClientError
  | Gaierror => inl RGaierror
  | OtherExc => inl ROther
  end.

(** The body of the [try] of [_api_wrapper] followed by its handlers. *)
Definition api_try (o : outcome) : exn + response :=
  match session_result o with
  | inl x => inl (except_clauses x)
  | inr r =>
      match raise_response_error r with
      | Some x => inl (except_clauses x)
      | None => inr r
      end
  end.

(** ** A state and exception monad *)

(** The client's tokens and the requests it has sent so far. *)
Record world := {
  tokens : client;
  calls : list request
}.

Definition M (A : Type) : Type := world -> (exn + A) * world.

Definition ret {A : Type} (a : A) : M A := fun w => (inr a, w).
Definition throw {A : Type} (e : exn) : M A := fun w => (inl e, w).
Definition lift {A : Type} (r : exn + A) : M A := fun w => (r, w).

Definition bind {A B : Type} (m : M A) (k : A -> M B) : M B :=
  fun w =>
    match m w with
    | (inl e, w') => (inl e, w')
    | (inr a, w') => k a w'
    end.

(** [try: m except: h]; the handler decides which exceptions it catches. *)
Definition try_except {A : Type} (m : M A) (h : exn -> M A) : M A :=
  fun w =>
    match m w with
    | (inl e, w') => h e w'
    | res => res
    end.

Notation "x <- m ;; k" := (bind m (fun x => k))
  (at level 61, m at next level, right associativity).
Notation "m ;;; k" := (bind m (fun _ => k))
  (at level 61, right associativity).

Definition get_client : M client := fun w => (inr (tokens w), w).

Definition set_access (t : json) : M unit :=
  fun w => (inr tt, {| tokens := {| access_token := t;
                                    refresh_token := refresh_token (tokens w) |};
                       calls := calls w |}).

Definition set_refresh (t : json) : M unit :=
  fun w => (inr tt, {| tokens := {| access_token := access_token (tokens w);
                                    refresh_token := t |};
                       calls := calls w |}).

(** ** api.py: [SmartTagApiClient]

    [session] is the aiohttp session: it answers the [n]-th request of the
    client (counted from 0).  [Ride_from_dict] is [Ride.from_dict], whose
    dates go through [datetime.strptime] and [astimezone()] in the process's
    local time zone; no claim depends on its details. *)
Section Client.

Variable session : nat -> request -> outcome.
Variable Ride_from_dict : json -> exn + Ride.

(** Hand a request to the session and record it. *)
Definition send (req : request) : M outcome :=
  fun w => (inr (session (List.length (calls w)) req),
            {| tokens := tokens w; calls := calls w ++ [req] |}).

(** [_api_wrapper(method, path, data, query, headers)] *)
Definition api_wrapper (method path : string) (data : option json)
    (query : list (string * json)) (headers : option json) : M response :=
  o <- send {| req_method := method; req_path := path; req_query := query;
               req_headers := headers; req_data := data |};;
  lift (api_try o).

Definition response_json (r : response) : M json :=
  match body r with
  | Some j => ret j
  | None => throw JsonDecodeError
  end.

(** [refresh_token = response.cookies.get("refreshToken")] and
    [if refresh_token: self.refresh_token = unquote(refresh_token.value)]; a
    [Morsel] is a non-empty dict, so the test holds whenever the cookie is
    present. *)
Definition store_refresh_cookie (r : response) : M unit :=
  match cookie_refresh r with
  | Some c => set_refresh (JStr (unquote c))
  | None => ret tt
  end.

(** [login(email, password)] *)
Definition login (email password : string) : M unit :=
  set_refresh JNull;;;
  set_access JNull;;;
  resp <- api_wrapper "POST" "user/login"
            (Some (JObj [("username"%string, JStr email); ("password"%string, JStr password)]))
            [] None;;
  if status resp =? 400 then throw SmartTagApiAuthError else
  j <- response_json resp;;
  store_refresh_cookie resp;;;
  tok <- lift (getitem j "token");;
  set_access tok.

(** [refresh_access_token()] *)
Definition refresh_access_token : M unit :=
  c <- get_client;;
  if is_None (access_token c) || is_None (refresh_token c)
  then throw SmartTagApiAuthError else
  resp <- api_wrapper "POST" "user/refresh"
            (Some (JObj [("token"%string, access_token c);
                         ("refreshToken"%string, refresh_token c)]))
            [] None;;
  if negb (ok resp) then throw SmartTagApiAuthError else
  j <- response_json resp;;
  store_refresh_cookie resp;;;
  tok <- lift (getitem j "token");;
  set_access tok.

(** The [headers] of [_authed_api_wrapper]: a bearer header when an access
    token is held, [None] otherwise. *)
Definition bearer_headers (c : client) : option json :=
  if is_None (access_token c) then None else Some (access_token c).

(** [_authed_api_wrapper(method, path, data, query)]: its [except] clause
    catches [SmartTagApiAuthError] only. *)
Definition authed_api_wrapper (method path : string) (data : option json)
    (query : list (string * json)) : M response :=
  c <- get_client;;
  try_except (api_wrapper method path data query (bearer_headers c))
    (fun e =>
       match e with
       | SmartTagApiAuthError =>
           refresh_access_token;;;
           c' <- get_client;;
           api_wrapper method path data query (bearer_headers c')
       | e => throw e
       end).

(** [get_students()] *)
Definition get_students : M (list Student) :=
  c <- get_client;;
  if is_None (access_token c) then throw SmartTagApiAuthError else
  resp <- authed_api_wrapper "GET" "parent/all-students" None [];;
  j <- response_json resp;;
  items <- lift (py_iter j);;
  lift (map_result Student_from_dict items).

(** [get_rides(student_id, limit)] *)
Definition get_rides (student_id : string) (limit : Z) : M (list Ride) :=
  c <- get_client;;
  if is_None (access_token c) then throw SmartTagApiAuthError else
  resp <- authed_api_wrapper "GET" "student/riding-activity" None
            [("studentid"%string, JStr student_id); ("pageIndex"%string, JNum 0);
             ("pageSize"%string, JNum limit)];;
  j <- response_json resp;;
  data <- lift (getitem j "data");;
  items <- lift (py_iter data);;
  lift (map_result Ride_from_dict items).

End Client.

(** ** datetime arithmetic *)

Definition us_per_s : Z := 1000000.
Definition us_per_day : Z := 86400 * us_per_s.

(** [datetime.max] is 9999-12-31 23:59:59.999999, and 9999-12-31 is day
    3652059 counted from 0001-01-01 as day 1. *)
Definition max_wall_us : Z := 3652059 * us_per_day - 1.

(** [d + timedelta(microseconds=delta)] on an aware datetime: the wall clock
    moves, the tzinfo stays, and a result outside
    [datetime.min, datetime.max] raises [OverflowError]. *)
Definition dt_add (d : datetime) (delta : Z) : exn + datetime :=
  let w := wall_us d + delta in
  if (0 <=? w) && (w <=? max_wall_us)
  then inr {| wall_us := w; utcoffset_us := utcoffset_us d |}
  else inl OverflowError.

(** [d.time()]: the wall-clock time of day, in microseconds since midnight;
    [time] values compare as these numbers. *)
Definition time_of (d : datetime) : Z := wall_us d mod us_per_day.

(** [a - b] of two aware datetimes, in microseconds: both are taken to UTC
    first (when their offsets agree this is the wall-clock difference). *)
Definition dt_sub (a b : datetime) : Z :=
  (wall_us a - utcoffset_us a) - (wall_us b - utcoffset_us b).

(** A normalised [timedelta]: [0 <= seconds < 86400] and
    [0 <= microseconds < 10^6], with floor division. *)
Record timedelta := {
  td_days : Z;
  td_seconds : Z;
  td_microseconds : Z
}.

Definition timedelta_of_us (us : Z) : timedelta :=
  {| td_days := us / us_per_day;
     td_seconds := (us mod us_per_day) / us_per_s;
     td_microseconds := us mod us_per_s |}.

Definition five_minutes : Z := 5 * 60 * us_per_s.
Definition ten_minutes : Z := 10 * 60 * us_per_s.

(** [(ride.end.time - ride.start.time).seconds] *)
Definition ride_seconds (ride : Ride) : Z :=
  td_seconds (timedelta_of_us (dt_sub (time (end_ ride)) (time (start ride)))).

(** The time of day of a ride's start, of its start plus 5 minutes and of
    its end plus 10 minutes. *)
Definition start_tod (r : Ride) : Z := time_of (time (start r)).
Definition embark_end_tod (r : Ride) : Z :=
  (wall_us (time (start r)) + five_minutes) mod us_per_day.
Definition debark_end_tod (r : Ride) : Z :=
  (wall_us (time (end_ r)) + ten_minutes) mod us_per_day.

(** The two additions of the loop stay within [datetime]'s range. *)
Definition in_range (r : Ride) : bool :=
  let s5 := wall_us (time (start r)) + five_minutes in
  let e10 := wall_us (time (end_ r)) + ten_minutes in
  (0 <=? s5) && (s5 <=? max_wall_us) && (0 <=? e10) && (e10 <=? max_wall_us).

(** The rides of [l] with route id [k], in their order in [l]. *)
Definition rides_of (l : list Ride) (k : Z) : list Ride :=
  filter (fun r => route_id r =? k) l.

(** ** config_flow.py: [average_route_polling_data]

    The running mean [length_secs] is a Python float.  The averaging is
    written over any number type with the operations it uses, so that it can
    be read both with IEEE doubles (what the code computes) and with exact
    rationals. *)
Section Averaging.

Variable R : Type.
Variable zero : R.
Variables (add sub div : R -> R -> R).
(** The conversion of a (small, non-negative) Python int to the number type. *)
Variable of_Z : Z -> R.

(** The [Route] dataclass; [r_length] is its [length] field, [r_id] and
    [r_name] its [id] and [name]. *)
Record Route := {
  embark_start : Z;
  embark_end : Z;
  r_length : R;
  debark_end : Z;
  r_id : Z;
  r_name : string
}.

(** The loop [for i, ride in enumerate(data)], threading
    [embark_start_min], [embark_end_max], [debark_end_max] and
    [length_secs]. *)
Fixpoint avg_loop (i : Z) (data : list Ride) (es ee de : Z) (len : R)
    : exn + (Z * Z * Z * R) :=
  match data with
  | [] => inr (es, ee, de, len)
  | ride :: rest =>
      let es' := Z.min es (time_of (time (start ride))) in
      match dt_add (time (start ride)) five_minutes with
      | inl e => inl e
      | inr s5 =>
          let ee' := Z.max ee (time_of s5) in
          match dt_add (time (end_ ride)) ten_minutes with
          | inl e => inl e
          | inr e10 =>
              let de' := Z.max de (time_of e10) in
              let len' := add len (div (sub (of_Z (ride_seconds ride)) len)
                                       (of_Z (i + 1))) in
              avg_loop (i + 1) rest es' ee' de' len'
          end
      end
  end.

(** [average_route_polling_data(data)]: [time(23, 59, 59)] and [time(0, 0)]
    start the running minimum and maxima; [data[0]] raises [IndexError] on
    an empty list. *)
Definition average_route_polling_data (data : list Ride) : exn + Route :=
  match avg_loop 0 data (86399 * us_per_s) 0 0 zero with
  | inl e => inl e
  | inr (es, ee, de, len) =>
      match data with
      | [] => inl IndexError
      | first :: _ =>
          inr {| embark_start := es; embark_end := ee;
                 r_length := div len (of_Z 60); debark_end := de;
                 r_id := route_id first; r_name := route_name first |}
      end
  end.

(** The dict [routes] of [async_step_choose_times], as an association list
    in insertion order: [ride.route_id in routes] appends to the existing
    list, otherwise a new key is added at the end. *)
Fixpoint group_insert (routes : list (Z * list Ride)) (ride : Ride)
    : list (Z * list Ride) :=
  match routes with
  | [] => [(route_id ride, [ride])]
  | (k, rs) :: rest =>
      if k =? route_id ride then (k, rs ++ [ride]) :: rest
      else (k, rs) :: group_insert rest ride
  end.

Definition group_by_route (rides : list Ride) : list (Z * list Ride) :=
  fold_left group_insert rides [].

(** [avg_routes = [average_route_polling_data(rides) for rides in routes.values()]] *)
Definition aggregate_routes (rides : list Ride) : exn + list Route :=
  map_result average_route_polling_data (map snd (group_by_route rides)).

(** The running mean of the loop, on its own. *)
Fixpoint run_mean (i : Z) (l : list Ride) (len : R) : R :=
  match l with
  | [] => len
  | ride :: rest =>
      run_mean (i + 1) rest
        (add len (div (sub (of_Z (ride_seconds ride)) len) (of_Z (i + 1))))
  end.

(** The route built from a non-empty group whose rides are all in range. *)
Definition window (first : Ride) (g : list Ride) : Route :=
  {| embark_start := fold_left Z.min (map start_tod g) (86399 * us_per_s);
     embark_end := fold_left Z.max (map embark_end_tod g) 0;
     r_length := div (run_mean 0 g zero) (of_Z 60);
     debark_end := fold_left Z.max (map debark_end_tod g) 0;
     r_id := route_id first;
     r_name := route_name first |}.

(** The groups' routes, paired with the keys of [routes]. *)
Definition windows_of (l : list Ride) (ks : list Z) (ws : list Route) : Prop :=
  Forall2 (fun k w => exists r0 rest,
             rides_of l k = r0 :: rest /\ w = window r0 (r0 :: rest)) ks ws.

End Averaging.

Arguments embark_start {R}.
Arguments embark_end {R}.
Arguments r_length {R}.
Arguments debark_end {R}.
Arguments r_id {R}.
Arguments r_name {R}.

(** A response with the given status, body and [refreshToken] cookie, and a
    session that answers it to every request. *)
Definition resp (s : Z) (b : option json) (c : option string) : response :=
  {| status := s; body := b; cookie_refresh := c |}.

Definition answer (r : response) : nat -> request -> outcome :=
  fun _ _ => Response r.

Definition fresh_client : world :=
  {| tokens := {| access_token := JNull; refresh_token := JNull |}; calls := [] |}.

Definition logged_in : world :=
  {| tokens := {| access_token := JStr "a"; refresh_token := JStr "r" |};
     calls := [] |}.

(** Python's [int] to [float] conversion, exact on the small non-negative
    ints it is applied to here (seconds of a day, loop counters, 60). *)
Definition float_of_Z (z : Z) : float := of_uint63 (Uint63.of_Z z).

(** The code: [length_secs] as an IEEE double. *)
Definition average_route_polling_data_float :=
  average_route_polling_data float 0%float PrimFloat.add PrimFloat.sub PrimFloat.div float_of_Z.
Definition aggregate_routes_float :=
  aggregate_routes float 0%float PrimFloat.add PrimFloat.sub PrimFloat.div float_of_Z.

(** The same loop read over exact rationals. *)
Definition average_route_polling_data_Q :=
  average_route_polling_data Q 0%Q Qplus Qminus Qdiv inject_Z.
Definition aggregate_routes_Q :=
  aggregate_routes Q 0%Q Qplus Qminus Qdiv inject_Z.

(** ** Sample rides

    A local wall-clock time on a given proleptic Gregorian ordinal
    ([date.toordinal()]), at UTC-4. *)
Definition local_time (ordinal h m sec : Z) : datetime :=
  {| wall_us := ((ordinal - 1) * 86400 + h * 3600 + m * 60 + sec) * us_per_s;
     utcoffset_us := -4 * 3600 * us_per_s |}.

Definition endpoint (d : datetime) : RideEndpoint :=
  {| time := d; lat := 0%float; long := 0%float |}.

Definition sample_ride (id : Z) (s e : datetime) (rid : Z) (rname : string) : Ride :=
  {| ride_id := id; bus_id := "12"; start := endpoint s; end_ := endpoint e;
     driver := "D"; shift := "AM"; route_id := rid; route_name := rname |}.

(** 2024-09-03 has ordinal 739132; 9999-12-31 has ordinal 3652059. *)
Definition sep3 : Z := 739132.
Definition last_day : Z := 3652059.

(** All rides of a route carry the same route name. *)
Definition route_names_agree (l : list Ride) : Prop :=
  forall r1 r2, In r1 l -> In r2 l -> route_id r1 = route_id r2 ->
  route_name r1 = route_name r2.

(** The sum of the rides' [(end - start).seconds]. *)
Definition sum_seconds (l : list Ride) : Z := fold_right Z.add 0 (map ride_seconds l).

(** Two rides of route 1 on 2024-09-03: 08:00 to 08:20 and 08:10 to 08:25. *)
Definition morning_ride_1 : Ride :=
  sample_ride 101 (local_time sep3 8 0 0) (local_time sep3 8 20 0) 1 "R1".
Definition morning_ride_2 : Ride :=
  sample_ride 102 (local_time sep3 8 10 0) (local_time sep3 8 25 0) 1 "R1".

(** A later ride of route 1 under another route name, and a ride of route 2. *)
Definition renamed_ride : Ride :=
  sample_ride 103 (local_time sep3 15 0 0) (local_time sep3 15 30 0) 1 "R1 PM".
Definition route2_ride : Ride :=
  sample_ride 104 (local_time sep3 9 0 0) (local_time sep3 9 20 0) 2 "R2".

(** The [id] of each route of an aggregation, or nothing on an error. *)
Definition result_ids {R : Type} (res : exn + list (Route R)) : list Z :=
  match res with inl _ => [] | inr ws => map r_id ws end.

(** The [name] of each route of an aggregation, or nothing on an error. *)
Definition result_names {R : Type} (res : exn + list (Route R)) : list string :=
  match res with inl _ => [] | inr ws => map r_name ws end.

(** The true duration [end - start] of a ride, in microseconds. *)
Definition ride_duration_us (ride : Ride) : Z :=
  dt_sub (time (end_ ride)) (time (start ride)).

(** ** config_flow.py: the steps of [SmartTagConfigFlow]

    [CONF_EMAIL] and [CONF_PASSWORD] are Home Assistant's ["email"] and
    ["password"]; [CONF_STUDENT] is const.py's ["student"]. *)
Definition CONF_EMAIL : string := "email".
Definition CONF_PASSWORD : string := "password".
Definition CONF_STUDENT : string := "student".

(** The [user_input] dict a form submits, with string values;
    [user_input[key]] reads the value stored last under [key]. *)
Definition user_input := list (string * string).

Fixpoint input_get (k : string) (ui : user_input) : option string :=
  match ui with
  | [] => None
  | (k', v) :: rest =>
      match input_get k rest with
      | Some v' => Some v'
      | None => if String.eqb k k' then Some v else None
      end
  end.

(** The [except] clauses of the three steps, tried in order:
    [SmartTagApiAuthError] gives ["auth"], [SmartTagApiNetworkError]
    ["connection"], [SmartTagApiError] ["unknown"]; any other exception is
    not caught ([None]).  The logging calls have no other effect. *)
Definition flow_error (e : exn) : option string :=
  match e with
  | SmartTagApiAuthError => Some "auth"%string
  | SmartTagApiNetworkError => Some "connection"%string
  | SmartTagApiError => Some "unknown"%string
  | _ => None
  end.

(** The attributes of the flow: [_api_client] ([None] until [async_step_user]
    creates it; the client is its token state and request log) and
    [_student_id] ([None] while the attribute has never been assigned:
    [__init__] does not create it). *)
Record flow := {
  fl_api_client : option world;
  fl_student_id : option string
}.

(** A form shown by [async_show_form]: its step id is the constructor; it
    carries the [errors] dict and the data of its schema (the e-mail default
    of the user form, [None] for [vol.UNDEFINED]; the students, resp. the
    routes, one select option being built from each). *)
Inductive form :=
| UserForm (errors : list (string * string)) (email_default : option string)
| ChooseStudentForm (errors : list (string * string)) (students : list Student)
| ChooseTimesForm (errors : list (string * string)) (routes : list (Route float)).

(** How a step ends: a form, an exception it lets through, or the two
    exceptions the flow raises itself ([InvalidStateError], and the
    [AttributeError] of reading [self._student_id] before it is assigned). *)
Inductive step_result :=
| Shown (f : form)
| Raised (e : exn)
| InvalidStateError
| AttributeError.

Section Flow.

Variable session : nat -> request -> outcome.
Variable Ride_from_dict : json -> exn + Ride.

(** [async_step_choose_times(user_input)]; [user_input] is not used. *)
Definition step_choose_times (fl : flow) (ui : option user_input)
    : step_result * flow :=
  match fl_api_client fl with
  | None => (InvalidStateError, fl)
  | Some w =>
      match fl_student_id fl with
      | None => (AttributeError, fl)
      | Some sid =>
          let (res, w') := get_rides session Ride_from_dict sid 50 w in
          let fl' := {| fl_api_client := Some w'; fl_student_id := Some sid |} in
          let fetched :=
            match res with
            | inr rides => inr ([], rides)
            | inl e =>
                match flow_error e with
                | Some m => inr ([("base"%string, m)], [])
                | None => inl e
                end
            end in
          match fetched with
          | inl e => (Raised e, fl')
          | inr (errs, rides) =>
              match aggregate_routes_float rides with
              | inl e => (Raised e, fl')
              | inr routes => (Shown (ChooseTimesForm errs routes), fl')
              end
          end
      end
  end.

(** [async_step_choose_student(user_input)] *)
Definition step_choose_student (fl : flow) (ui : option user_input)
    : step_result * flow :=
  match fl_api_client fl with
  | None => (InvalidStateError, fl)
  | Some w =>
      match ui with
      | Some input =>
          match input_get CONF_STUDENT input with
          | None => (Raised KeyError, fl)
          | Some sid =>
              step_choose_times {| fl_api_client := Some w; fl_student_id := Some sid |}
                None
          end
      | None =>
          let (res, w') := get_students session w in
          let fl' := {| fl_api_client := Some w'; fl_student_id := fl_student_id fl |} in
          match res with
          | inr students => (Shown (ChooseStudentForm [] students), fl')
          | inl e =>
              match flow_error e with
              | Some m => (Shown (ChooseStudentForm [("base"%string, m)] []), fl')
              | None => (Raised e, fl')
              end
          end
      end
  end.

(** [async_step_user(user_input)]: a new client has no tokens and has sent
    no request; the e-mail default is the submitted e-mail. *)
Definition step_user (fl : flow) (ui : option user_input) : step_result * flow :=
  let w := match fl_api_client fl with Some w => w | None => fresh_client end in
  let fl0 := {| fl_api_client := Some w; fl_student_id := fl_student_id fl |} in
  match ui with
  | None => (Shown (UserForm [] None), fl0)
  | Some input =>
      match input_get CONF_EMAIL input, input_get CONF_PASSWORD input with
      | Some email, Some password =>
          let (res, w') := login session email password w in
          let fl' := {| fl_api_client := Some w'; fl_student_id := fl_student_id fl |} in
          match res with
          | inr _ => step_choose_student fl' None
          | inl e =>
              match flow_error e with
              | Some m => (Shown (UserForm [("base"%string, m)] (Some email)), fl')
              | None => (Raised e, fl')
              end
          end
      | _, _ => (Raised KeyError, fl0)
      end
  end.

End Flow.

(** The distinct values of a list, in the order of their first occurrence. *)
Definition first_occurrences (l : list Z) : list Z :=
  fold_left (fun acc x => if existsb (Z.eqb x) acc then acc else acc ++ [x]) l [].

(** * Properties of the API client *)

(** Unfold the monad and the client's methods. *)
Ltac unfold_client :=
  unfold get_students, get_rides, authed_api_wrapper, refresh_access_token,
    login, bearer_headers, api_wrapper, send, response_json,
    store_refresh_cookie, try_except, bind, lift, ret, throw, get_client,
    set_access, set_refresh in *; cbn -[api_try unquote] in *.

(** Split on every [match] left in the goal. *)
Ltac split_matches :=
  repeat match goal with
         | |- context [match ?x with _ => _ end] =>
             lazymatch x with
             | context [match _ with _ => _ end] => fail
             | _ => destruct x eqn:?
             end
         end.

(** The [except Exception] clause of [_api_wrapper] also catches the
    [SmartTagApiAuthError] that [_raise_response_error] raises, so the
    wrapper never raises [SmartTagApiAuthError]. *)
Lemma api_try_not_auth (o : outcome) : api_try o <> inl SmartTagApiAuthError.
Proof.
  unfold api_try, session_result, raise_response_error, except_clauses.
  destruct o; try discriminate.
  destruct ((status r =? 401) || (status r =? 403)); try discriminate.
  destruct (negb ((status r =? 400) || (status r =? 404))); try discriminate.
  destruct (ok r); discriminate.
Qed.

(** Hence the [except SmartTagApiAuthError] branch of [_authed_api_wrapper]
    is never taken: it is one call of [_api_wrapper]. *)
Lemma authed_api_wrapper_one_call session m p d q w :
  authed_api_wrapper session m p d q w
  = api_wrapper session m p d q (bearer_headers (tokens w)) w.
Proof.
  unfold authed_api_wrapper, try_except, bind, get_client; cbn.
  unfold api_wrapper, bind, send, lift; cbn.
  destruct (api_try _) as [e|r] eqn:Ht; [|reflexivity].
  destruct e; try reflexivity.
  exfalso; exact (api_try_not_auth _ Ht).
Qed.

(** [api_try] on a response rejected with 401 or 403. *)
Lemma api_try_rejected (r : response) :
  status r = 401 \/ status r = 403 -> api_try (Response r) = inl SmartTagApiError.
Proof.
  intros Hs; unfold api_try, session_result, raise_response_error.
  destruct Hs as [-> | ->]; reflexivity.
Qed.

(** C1: the first request of [get_students] or [get_rides], made with a
    held access token, is answered 401 or 403.  The operation then fails
    with the generic [SmartTagApiError] after that single request: no
    [refresh_access_token] call, no retry, tokens untouched. *)
Theorem authed_rejection_not_retried session Ride_from_dict st r sid limit :
  is_None (access_token (tokens st)) = false ->
  (status r = 401 \/ status r = 403) ->
  (forall req, session (List.length (calls st)) req = Response r) ->
  fst (get_students session st) = inl SmartTagApiError /\
  List.length (calls (snd (get_students session st))) = S (List.length (calls st)) /\
  tokens (snd (get_students session st)) = tokens st /\
  fst (get_rides session Ride_from_dict sid limit st) = inl SmartTagApiError /\
  List.length (calls (snd (get_rides session Ride_from_dict sid limit st)))
    = S (List.length (calls st)) /\
  tokens (snd (get_rides session Ride_from_dict sid limit st)) = tokens st.
Proof.
  intros Hnone Hs Hsess.
  repeat split;
    unfold get_students, get_rides, bind at 1, get_client; cbn [fst snd];
    rewrite Hnone; unfold bind at 1; rewrite authed_api_wrapper_one_call;
    unfold api_wrapper, bind, send, lift; cbn;
    rewrite Hsess, (api_try_rejected r Hs); cbn;
    rewrite ?length_app; cbn; first [reflexivity | lia].
Qed.

Lemma authed_rejection_not_retried_witness :
  fst (get_students (answer (resp 401 None None)) logged_in) = inl SmartTagApiError /\
  calls (snd (get_students (answer (resp 401 None None)) logged_in)) <> [].
Proof.
  destruct (authed_rejection_not_retried (answer (resp 401 None None))
              (fun _ => inl KeyError) logged_in (resp 401 None None) "1"%string 5
              eq_refl (or_introl eq_refl) (fun _ => eq_refl)) as [H1 [H2 _]].
  split; [exact H1|].
  intros Hnil; rewrite Hnil in H2; discriminate.
Defined.

(** A failed lookup in a JSON value raises a built-in exception. *)
Lemma getitem_err j k e : getitem j k = inl e -> is_smart_tag_error e = false.
Proof.
  unfold getitem; destruct j; try (intros H; injection H as <-; reflexivity).
  destruct (assoc_last k kvs); intros H; [discriminate | injection H as <-; reflexivity].
Qed.

(** C3: [login] empties both tokens before anything else, so its run does
    not depend on the tokens held before; a login that fails with one of the
    client's three error kinds leaves no token behind; a 400 answer is
    reported as [SmartTagApiAuthError]. *)
Theorem login_clears_tokens session email pw st :
  login session email pw st
  = login session email pw
      {| tokens := {| access_token := JNull; refresh_token := JNull |};
         calls := calls st |} /\
  (forall e, fst (login session email pw st) = inl e ->
     is_smart_tag_error e = true ->
     access_token (tokens (snd (login session email pw st))) = JNull /\
     refresh_token (tokens (snd (login session email pw st))) = JNull) /\
  (forall r, (forall req, session (List.length (calls st)) req = Response r) ->
     status r = 400 ->
     fst (login session email pw st) = inl SmartTagApiAuthError).
Proof.
  split; [reflexivity|split].
  - intros e He Hk.
    unfold_client; split_matches; cbn in *; subst;
      try discriminate; try (injection He as <-; discriminate); auto.
    injection He as <-; apply getitem_err in Heqs0; congruence.
  - intros r Hsess Hs.
    unfold_client; rewrite Hsess.
    unfold api_try, session_result, raise_response_error; rewrite Hs; cbn; rewrite Hs; reflexivity.
Qed.



(** C2: what [_api_wrapper] makes of each outcome of the session, the
    401/403 case aside.  Statuses below 400, 400 and 404 are handed back;
    other statuses of 400 or more raise [SmartTagApiNetworkError], since
    [raise_for_status] raises an [aiohttp.ClientError]; a timeout, an aiohttp
    client error or a DNS failure raises [SmartTagApiNetworkError]; any other
    exception raises [SmartTagApiError].  The request is recorded and the
    tokens are untouched.  Errors from decoding a body are outside the
    wrapper: a login answered 200 with a JSON body lacking "token" raises
    [KeyError] to its caller. *)
Theorem api_wrapper_classification session m p d q h w :
  (let req := {| req_method := m; req_path := p; req_query := q;
                 req_headers := h; req_data := d |} in
   let (res, w') := api_wrapper session m p d q h w in
   tokens w' = tokens w /\ calls w' = calls w ++ [req] /\
   match session (List.length (calls w)) req with
   | Response r =>
       (status r < 400 \/ status r = 400 \/ status r = 404 -> res = inr r) /\
       (400 <= status r -> status r <> 400 -> status r <> 401 ->
        status r <> 403 -> status r <> 404 -> res = inl SmartTagApiNetworkError)
   | Timeout | ClientErr | Gaierror => res = inl SmartTagApiNetworkError
   | OtherExc => res = inl SmartTagApiError
   end) /\
  fst (login (fun _ _ => Response {| status := 200; body := Some (JObj []);
                                      cookie_refresh := None |})
         "user@example.com" "pw" w) = inl KeyError.
Proof.
  split; [|reflexivity].
  cbv zeta; unfold api_wrapper, bind, send, lift; cbn.
  split; [reflexivity|split; [reflexivity|]].
  unfold api_try, session_result, raise_response_error, ok, except_clauses.
  destruct (session _ _) as [r| | | |]; try reflexivity.
  split.
  - intros Hs.
    destruct (Z.eqb_spec (status r) 401); [lia|].
    destruct (Z.eqb_spec (status r) 403); [lia|]; cbn.
    destruct (Z.eqb_spec (status r) 400); cbn; [reflexivity|].
    destruct (Z.eqb_spec (status r) 404); cbn; [reflexivity|].
    destruct (Z.ltb_spec (status r) 400); [reflexivity|lia].
  - intros H400 Hn400 Hn401 Hn403 Hn404.
    apply Z.eqb_neq in Hn400, Hn401, Hn403, Hn404.
    rewrite Hn400, Hn401, Hn403, Hn404; cbn.
    destruct (Z.ltb_spec (status r) 400); [lia|reflexivity].
Qed.

(** C2 fails as stated: a 500 answer raises [SmartTagApiNetworkError], a 401
    answer the generic [SmartTagApiError], and a [KeyError] reaches the
    caller of [login]. *)
Lemma api_wrapper_classification_counterexample :
  fst (api_wrapper (answer (resp 500 None None)) "GET" "parent/all-students"
         None [] None logged_in) = inl SmartTagApiNetworkError /\
  fst (api_wrapper (answer (resp 401 None None)) "GET" "parent/all-students"
         None [] None logged_in) = inl SmartTagApiError /\
  fst (login (answer (resp 200 (Some (JObj [])) None)) "user@example.com" "pw"
         fresh_client) = inl KeyError.
Proof. repeat split; reflexivity. Qed.

(** C7 fails as stated: with no access token, [get_students] raises
    [SmartTagApiAuthError] from its own check and sends nothing, although
    the session would have answered. *)
Lemma no_token_request_counterexample :
  get_students (answer (resp 401 None None)) fresh_client
  = (inl SmartTagApiAuthError, fresh_client).
Proof. reflexivity. Qed.

(** C7, as the code does it: called with no access token, [get_students]
    and [get_rides] raise [SmartTagApiAuthError] from the client-side check,
    issue no request and leave the client as it was. *)
Theorem no_token_rejected_locally session Ride_from_dict st sid limit :
  is_None (access_token (tokens st)) = true ->
  get_students session st = (inl SmartTagApiAuthError, st) /\
  get_rides session Ride_from_dict sid limit st = (inl SmartTagApiAuthError, st).
Proof.
  intros Hnone; split;
    unfold get_students, get_rides, bind at 1, get_client; cbn [fst snd];
    rewrite Hnone; reflexivity.
Qed.

Lemma no_token_rejected_locally_witness :
  get_students (answer (resp 200 (Some (JArr [])) None)) fresh_client
  = (inl SmartTagApiAuthError, fresh_client).
Proof.
  exact (proj1 (no_token_rejected_locally (answer (resp 200 (Some (JArr [])) None))
                  (fun _ => inl KeyError) fresh_client "1"%string 5 eq_refl)).
Defined.



(** * Properties of the route averaging *)

Section AveragingProps.

Variable R : Type.
Variable zero : R.
Variables (add sub div : R -> R -> R).
Variable of_Z : Z -> R.

Local Abbreviation avg_loop := (avg_loop R add sub div of_Z).
Local Abbreviation average := (average_route_polling_data R zero add sub div of_Z).
Local Abbreviation aggregate := (aggregate_routes R zero add sub div of_Z).
Local Abbreviation run_mean := (run_mean R add sub div of_Z).
Local Abbreviation window := (window R zero add sub div of_Z).

Lemma in_range_true r :
  in_range r = true ->
  dt_add (time (start r)) five_minutes
  = inr {| wall_us := wall_us (time (start r)) + five_minutes;
           utcoffset_us := utcoffset_us (time (start r)) |} /\
  dt_add (time (end_ r)) ten_minutes
  = inr {| wall_us := wall_us (time (end_ r)) + ten_minutes;
           utcoffset_us := utcoffset_us (time (end_ r)) |}.
Proof.
  unfold in_range, dt_add; cbv zeta.
  destruct (0 <=? wall_us (time (start r)) + five_minutes),
           (wall_us (time (start r)) + five_minutes <=? max_wall_us),
           (0 <=? wall_us (time (end_ r)) + ten_minutes),
           (wall_us (time (end_ r)) + ten_minutes <=? max_wall_us);
    cbn; intros H; try discriminate; split; reflexivity.
Qed.

Lemma in_range_false r :
  in_range r = false ->
  dt_add (time (start r)) five_minutes = inl OverflowError \/
  (exists d, dt_add (time (start r)) five_minutes = inr d /\
             dt_add (time (end_ r)) ten_minutes = inl OverflowError).
Proof.
  unfold in_range, dt_add; cbv zeta.
  destruct (0 <=? wall_us (time (start r)) + five_minutes),
           (wall_us (time (start r)) + five_minutes <=? max_wall_us),
           (0 <=? wall_us (time (end_ r)) + ten_minutes),
           (wall_us (time (end_ r)) + ten_minutes <=? max_wall_us);
    cbn; intros H; try discriminate; eauto.
Qed.

Lemma avg_loop_ok i l es ee de len :
  forallb in_range l = true ->
  avg_loop i l es ee de len
  = inr (fold_left Z.min (map start_tod l) es,
         fold_left Z.max (map embark_end_tod l) ee,
         fold_left Z.max (map debark_end_tod l) de,
         run_mean i l len).
Proof.
  revert i es ee de len.
  induction l as [|r l IH]; intros i es ee de len Hok; [reflexivity|].
  cbn -[dt_add five_minutes ten_minutes ride_seconds] in Hok |- *.
  apply andb_prop in Hok as [Hr Hok].
  destruct (in_range_true r Hr) as [-> ->]; cbn -[ride_seconds].
  apply IH, Hok.
Qed.

Lemma avg_loop_error i l es ee de len :
  forallb in_range l = false -> avg_loop i l es ee de len = inl OverflowError.
Proof.
  revert i es ee de len.
  induction l as [|r l IH]; intros i es ee de len Hbad; [discriminate|].
  cbn -[dt_add five_minutes ten_minutes ride_seconds] in Hbad |- *.
  destruct (in_range r) eqn:Hr.
  - destruct (in_range_true r Hr) as [-> ->]; cbn; apply IH, Hbad.
  - destruct (in_range_false r Hr) as [-> | [d [-> ->]]]; reflexivity.
Qed.

Lemma average_ok first rest :
  forallb in_range (first :: rest) = true ->
  average (first :: rest) = inr (window first (first :: rest)).
Proof.
  intros Hok; unfold average_route_polling_data.
  rewrite (avg_loop_ok 0 (first :: rest) _ _ _ _ Hok); reflexivity.
Qed.

Lemma average_error g :
  forallb in_range g = false -> average g = inl OverflowError.
Proof.
  intros Hbad; unfold average_route_polling_data.
  rewrite (avg_loop_error 0 g _ _ _ _ Hbad); reflexivity.
Qed.

Lemma average_nil : average [] = inl IndexError.
Proof. reflexivity. Qed.

End AveragingProps.

(** ** The grouping by route id *)

Lemma rides_of_snoc p x k :
  rides_of (p ++ [x]) k = rides_of p k ++ (if route_id x =? k then [x] else []).
Proof. unfold rides_of; rewrite filter_app; reflexivity. Qed.

Lemma rides_of_none l k :
  (forall r, In r l -> route_id r = k -> False) -> rides_of l k = [].
Proof.
  induction l as [|r l IH]; intros H; [reflexivity|]; cbn.
  destruct (Z.eqb_spec (route_id r) k) as [Hk|Hk].
  - exfalso; apply (H r); [left|]; auto.
  - apply IH; intros r' Hr'; apply H; right; exact Hr'.
Qed.

Lemma group_insert_old ks p x :
  In (route_id x) ks -> NoDup ks ->
  group_insert (map (fun k => (k, rides_of p k)) ks) x
  = map (fun k => (k, rides_of (p ++ [x]) k)) ks.
Proof.
  induction ks as [|k ks IH]; intros Hin Hnd; [destruct Hin|].
  inversion Hnd as [|? ? Hk Hnd']; subst; cbn [map group_insert].
  destruct (Z.eqb_spec k (route_id x)) as [Heq|Hne].
  - subst k; rewrite rides_of_snoc, Z.eqb_refl; f_equal.
    apply map_ext_in; intros k' Hk'; rewrite rides_of_snoc.
    destruct (Z.eqb_spec (route_id x) k') as [Heq|]; [subst k'; contradiction|].
    rewrite app_nil_r; reflexivity.
  - destruct Hin as [->|Hin]; [contradiction|].
    rewrite rides_of_snoc.
    destruct (Z.eqb_spec (route_id x) k) as [Heq|]; [congruence|].
    rewrite app_nil_r, IH; auto.
Qed.

Lemma group_insert_new ks p x :
  ~ In (route_id x) ks ->
  group_insert (map (fun k => (k, rides_of p k)) ks) x
  = map (fun k => (k, rides_of (p ++ [x]) k)) ks ++ [(route_id x, [x])].
Proof.
  induction ks as [|k ks IH]; intros Hin; [reflexivity|].
  cbn [map group_insert app]; destruct (Z.eqb_spec k (route_id x)) as [Heq|Hne].
  - exfalso; apply Hin; left; exact Heq.
  - rewrite rides_of_snoc.
    destruct (Z.eqb_spec (route_id x) k) as [Heq|]; [congruence|].
    rewrite app_nil_r, IH; [reflexivity|].
    intros H; apply Hin; right; exact H.
Qed.

(** [routes] after the loop of [async_step_choose_times]: one entry per
    distinct route id, in order of first appearance, holding the rides of
    that route in input order. *)
Lemma group_by_route_spec l :
  exists ks, NoDup ks /\
    (forall k, In k ks <-> exists r, In r l /\ route_id r = k) /\
    group_by_route l = map (fun k => (k, rides_of l k)) ks.
Proof.
  induction l as [|x l IH] using rev_ind.
  - exists []; split; [apply NoDup_nil|split; [|reflexivity]].
    intros k; split; [intros []|intros [r [[] _]]].
  - destruct IH as [ks [Hnd [Hmem Heq]]].
    unfold group_by_route in *; rewrite fold_left_app, Heq; cbn.
    destruct (in_dec Z.eq_dec (route_id x) ks) as [Hin|Hout].
    + exists ks; split; [exact Hnd|split].
      * intros k; rewrite Hmem; split.
        -- intros [r [Hr Hk]]; exists r; split; [apply in_or_app; left|]; assumption.
        -- intros [r [Hr Hk]]; apply in_app_or in Hr as [Hr|[<-|[]]]; eauto.
           apply Hmem; subst; exact Hin.
      * apply group_insert_old; assumption.
    + exists (ks ++ [route_id x]); split; [|split].
      * apply NoDup_app; [exact Hnd|constructor; [intros []|constructor]|].
        intros k Hk [<-|[]]; contradiction.
      * intros k; split.
        -- intros Hk; apply in_app_or in Hk as [Hk|[<-|[]]].
           ++ apply Hmem in Hk as [r [Hr Hrk]].
              exists r; split; [apply in_or_app; left|]; assumption.
           ++ exists x; split; [apply in_or_app; right; left|]; reflexivity.
        -- intros [r [Hr Hk]]; apply in_app_or in Hr as [Hr|[<-|[]]].
           ++ apply in_or_app; left; apply Hmem; eauto.
           ++ apply in_or_app; right; left; assumption.
      * rewrite group_insert_new by exact Hout.
        rewrite map_app; cbn; f_equal; f_equal; f_equal.
        rewrite rides_of_snoc, Z.eqb_refl.
        replace (rides_of l (route_id x)) with (@nil Ride); [reflexivity|].
        symmetry; apply rides_of_none.
        intros r Hr Hrk; apply Hout, Hmem; eauto.
Qed.

(** ** List facts used below *)

Lemma map_result_Forall2 {A B : Type} (f : A -> exn + B) l ys :
  map_result f l = inr ys -> Forall2 (fun x y => f x = inr y) l ys.
Proof.
  revert ys; induction l as [|x l IH]; intros ys H; cbn in H.
  - injection H as <-; constructor.
  - destruct (f x) as [e|y] eqn:Hf; [discriminate|].
    destruct (map_result f l) as [e|ys'] eqn:Hl; [discriminate|].
    injection H as <-; constructor; auto.
Qed.

Lemma map_result_all_ok {A B : Type} (f : A -> exn + B) l :
  (forall x, In x l -> exists y, f x = inr y) ->
  exists ys, map_result f l = inr ys.
Proof.
  induction l as [|x l IH]; intros H; [exists []; reflexivity|]; cbn.
  destruct (H x (or_introl eq_refl)) as [y ->].
  destruct IH as [ys ->]; [intros z Hz; apply H; right; exact Hz|].
  exists (y :: ys); reflexivity.
Qed.

Lemma map_result_fails {A B : Type} (f : A -> exn + B) l e :
  (forall x, In x l -> f x = inl e \/ exists y, f x = inr y) ->
  (exists x, In x l /\ f x = inl e) ->
  map_result f l = inl e.
Proof.
  induction l as [|x l IH]; intros Hall [z [Hz Hfz]]; [destruct Hz|]; cbn.
  destruct (Hall x (or_introl eq_refl)) as [-> | [y Hy]]; [reflexivity|].
  rewrite Hy; destruct Hz as [<- | Hz]; [congruence|].
  rewrite IH; eauto.
  intros w Hw; apply Hall; right; exact Hw.
Qed.

Lemma Forall2_in_right {A B : Type} (P : A -> B -> Prop) xs ys y :
  Forall2 P xs ys -> In y ys -> exists x, In x xs /\ P x y.
Proof.
  induction 1 as [|x y' xs ys Hxy _ IH]; intros Hy; [destruct Hy|].
  destruct Hy as [<- | Hy]; [exists x; split; [left|]; auto|].
  destruct (IH Hy) as [x' [Hx' HP]]; exists x'; split; [right|]; auto.
Qed.

Lemma Forall2_in_left {A B : Type} (P : A -> B -> Prop) xs ys x :
  Forall2 P xs ys -> In x xs -> exists y, In y ys /\ P x y.
Proof.
  induction 1 as [|x' y xs ys Hxy _ IH]; intros Hx; [destruct Hx|].
  destruct Hx as [<- | Hx]; [exists y; split; [left|]; auto|].
  destruct (IH Hx) as [y' [Hy' HP]]; exists y'; split; [right|]; auto.
Qed.

Lemma Permutation_filter_rides (f : Ride -> bool) l l' :
  Permutation l l' -> Permutation (filter f l) (filter f l').
Proof.
  induction 1; cbn.
  - constructor.
  - destruct (f x); [apply perm_skip|]; assumption.
  - destruct (f x), (f y); try reflexivity; apply perm_swap.
  - eapply perm_trans; eauto.
Qed.

(** [min] and [max] folds do not depend on the order of the list. *)
Lemma fold_left_perm (f : Z -> Z -> Z) xs ys a :
  (forall b x y, f (f b x) y = f (f b y) x) ->
  Permutation xs ys -> fold_left f xs a = fold_left f ys a.
Proof.
  intros Hcomm HP; revert a.
  induction HP; intros a; cbn; auto.
  - rewrite Hcomm; reflexivity.
  - rewrite IHHP1; apply IHHP2.
Qed.

Lemma fold_min_le xs a : fold_left Z.min xs a <= a /\ forall x, In x xs -> fold_left Z.min xs a <= x.
Proof.
  revert a; induction xs as [|x xs IH]; intros a; cbn; [split; [lia|intros _ []]|].
  destruct (IH (Z.min a x)) as [H1 H2]; split; [lia|].
  intros y [<- | Hy]; [lia|auto].
Qed.

Lemma fold_max_ge xs a : a <= fold_left Z.max xs a /\ forall x, In x xs -> x <= fold_left Z.max xs a.
Proof.
  revert a; induction xs as [|x xs IH]; intros a; cbn; [split; [lia|intros _ []]|].
  destruct (IH (Z.max a x)) as [H1 H2]; split; [lia|].
  intros y [<- | Hy]; [lia|auto].
Qed.

Lemma rides_of_In l k r : In r (rides_of l k) <-> In r l /\ route_id r = k.
Proof.
  unfold rides_of; rewrite filter_In.
  destruct (Z.eqb_spec (route_id r) k); intuition congruence.
Qed.

Lemma rides_of_nonempty l k :
  (exists r, In r l /\ route_id r = k) ->
  exists r0 rest, rides_of l k = r0 :: rest.
Proof.
  intros [r Hr]; apply rides_of_In in Hr.
  destruct (rides_of l k) as [|r0 rest]; [destruct Hr|eauto].
Qed.

Lemma forallb_false_ex {A : Type} (f : A -> bool) l :
  forallb f l = false -> exists x, In x l /\ f x = false.
Proof.
  induction l as [|x l IH]; cbn; [discriminate|].
  destruct (f x) eqn:Hx; cbn; intros H.
  - destruct (IH H) as [y [Hy Hfy]]; exists y; split; [right|]; auto.
  - exists x; split; [left|]; auto.
Qed.

Lemma Forall2_map_left {A A' B : Type} (g : A -> A') (P : A' -> B -> Prop) xs ys :
  Forall2 P (map g xs) ys -> Forall2 (fun x y => P (g x) y) xs ys.
Proof.
  revert ys; induction xs as [|x xs IH]; intros ys H; inversion H; subst;
    constructor; auto.
Qed.

Lemma rides_of_in_range l k :
  forallb in_range l = true -> forallb in_range (rides_of l k) = true.
Proof.
  intros H; apply forallb_forall; intros r Hr.
  apply rides_of_In in Hr as [Hr _].
  exact (proj1 (forallb_forall _ _) H r Hr).
Qed.

Section AggregateProps.

Variable R : Type.
Variable zero : R.
Variables (add sub div : R -> R -> R).
Variable of_Z : Z -> R.

Local Abbreviation average := (average_route_polling_data R zero add sub div of_Z).
Local Abbreviation aggregate := (aggregate_routes R zero add sub div of_Z).
Local Abbreviation win := (window R zero add sub div of_Z).

(** The routes computed from a ride list: one per key of [routes], built
    from the rides of that key, or [OverflowError] when a ride's start plus
    5 minutes or end plus 10 minutes leaves [datetime]'s range. *)
Lemma aggregate_spec l :
  exists ks, NoDup ks /\
    (forall k, In k ks <-> exists r, In r l /\ route_id r = k) /\
    (forallb in_range l = true ->
       exists ws, aggregate l = inr ws /\
         Forall2 (fun k w => exists r0 rest,
                    rides_of l k = r0 :: rest /\ w = win r0 (r0 :: rest)) ks ws) /\
    (forallb in_range l = false -> aggregate l = inl OverflowError).
Proof.
  destruct (group_by_route_spec l) as [ks [Hnd [Hmem Hg]]].
  exists ks; split; [exact Hnd|split; [exact Hmem|]].
  unfold aggregate_routes; rewrite Hg, map_map; cbn [snd].
  split.
  - intros Hok.
    destruct (map_result_all_ok average (map (fun k => rides_of l k) ks)) as [ws Hws].
    + intros g Hgin; apply in_map_iff in Hgin as [k [<- Hk]].
      destruct (rides_of_nonempty l k) as [r0 [rest Hrk]]; [apply Hmem, Hk|].
      rewrite Hrk; eexists; apply average_ok.
      rewrite <- Hrk; apply rides_of_in_range, Hok.
    + exists ws; split; [exact Hws|].
      apply map_result_Forall2, Forall2_map_left in Hws.
      eapply Forall2_impl; [|exact Hws]; cbn; intros k w Hkw.
      destruct (rides_of l k) as [|r0 rest] eqn:Hrk; [discriminate|].
      exists r0, rest; split; [reflexivity|].
      rewrite average_ok in Hkw; [congruence|].
      rewrite <- Hrk; apply rides_of_in_range, Hok.
  - intros Hbad.
    apply map_result_fails.
    + intros g Hgin; apply in_map_iff in Hgin as [k [<- Hk]].
      destruct (rides_of_nonempty l k) as [r0 [rest Hrk]]; [apply Hmem, Hk|].
      rewrite Hrk; destruct (forallb in_range (r0 :: rest)) eqn:Hin.
      * right; eexists; apply average_ok, Hin.
      * left; apply average_error, Hin.
    + destruct (forallb_false_ex in_range l Hbad) as [x [Hx Hxr]].
      exists (rides_of l (route_id x)); split.
      * apply in_map; apply Hmem; eauto.
      * apply average_error.
        destruct (forallb in_range (rides_of l (route_id x))) eqn:Hall; [|reflexivity].
        rewrite forallb_forall in Hall.
        rewrite (Hall x) in Hxr; [discriminate|].
        apply rides_of_In; auto.
Qed.

End AggregateProps.

Section WindowFacts.

Variable R : Type.
Variable zero : R.
Variables (add sub div : R -> R -> R).
Variable of_Z : Z -> R.

Local Abbreviation win := (window R zero add sub div of_Z).
Local Abbreviation windows := (windows_of R zero add sub div of_Z).

Lemma windows_of_ids l ks ws : windows l ks ws -> map r_id ws = ks.
Proof.
  induction 1 as [|k w ks ws [r0 [rest [Hrk ->]]] _ IH]; [reflexivity|].
  cbn; rewrite IH; f_equal.
  assert (Hr0 : In r0 (rides_of l k)) by (rewrite Hrk; left; reflexivity).
  apply rides_of_In in Hr0; apply Hr0.
Qed.

Lemma window_bounds r0 rest r :
  In r (r0 :: rest) ->
  embark_start (win r0 (r0 :: rest)) <= start_tod r /\
  embark_end_tod r <= embark_end (win r0 (r0 :: rest)) /\
  debark_end_tod r <= debark_end (win r0 (r0 :: rest)).
Proof.
  intros Hr; cbn [embark_start embark_end debark_end window].
  split; [|split].
  - apply (proj2 (fold_min_le _ _)), in_map, Hr.
  - apply (proj2 (fold_max_ge _ _)), in_map, Hr.
  - apply (proj2 (fold_max_ge _ _)), in_map, Hr.
Qed.

End WindowFacts.

(** ** Reordering the rides *)

Lemma forallb_perm {A : Type} (f : A -> bool) l l' :
  Permutation l l' -> forallb f l = forallb f l'.
Proof.
  induction 1; cbn; try congruence.
  rewrite !andb_assoc, (andb_comm (f y)); reflexivity.
Qed.

Lemma sum_perm xs ys :
  Permutation xs ys -> fold_right Z.add 0 xs = fold_right Z.add 0 ys.
Proof. induction 1; cbn; lia. Qed.

Lemma sum_seconds_perm g g' : Permutation g g' -> sum_seconds g = sum_seconds g'.
Proof. intros HP; apply sum_perm, Permutation_map, HP. Qed.

Section PermutationProps.

Variable R : Type.
Variable zero : R.
Variables (add sub div : R -> R -> R).
Variable of_Z : Z -> R.

Local Abbreviation aggregate := (aggregate_routes R zero add sub div of_Z).
Local Abbreviation win := (window R zero add sub div of_Z).
Local Abbreviation mean := (run_mean R add sub div of_Z).

Lemma aggregate_cases l :
  (forallb in_range l = true /\ exists ws, aggregate l = inr ws) \/
  (forallb in_range l = false /\ aggregate l = inl OverflowError).
Proof.
  destruct (aggregate_spec R zero add sub div of_Z l) as [ks [_ [_ [Hs Hf]]]].
  destruct (forallb in_range l) eqn:Hok.
  - left; split; [reflexivity|]; destruct (Hs eq_refl) as [ws [H _]]; eauto.
  - right; auto.
Qed.

(** The windows of two groups that are permutations of each other have the
    same times, and their lengths are the running means of the two orders. *)
Lemma window_perm r0 rest r0' rest' :
  Permutation (r0 :: rest) (r0' :: rest') ->
  embark_start (win r0' (r0' :: rest')) = embark_start (win r0 (r0 :: rest)) /\
  embark_end (win r0' (r0' :: rest')) = embark_end (win r0 (r0 :: rest)) /\
  debark_end (win r0' (r0' :: rest')) = debark_end (win r0 (r0 :: rest)).
Proof.
  intros HP; cbn [embark_start embark_end debark_end window].
  split; [|split]; symmetry; apply fold_left_perm;
    try (intros; lia); apply Permutation_map, HP.
Qed.

Lemma aggregate_perm l l' :
  Permutation l l' ->
  (forall e, aggregate l = inl e <-> aggregate l' = inl e) /\
  (forall ws ws', aggregate l = inr ws -> aggregate l' = inr ws' ->
     Permutation (map r_id ws) (map r_id ws') /\
     forall w, In w ws -> exists w', In w' ws' /\ r_id w' = r_id w /\
       embark_start w' = embark_start w /\ embark_end w' = embark_end w /\
       debark_end w' = debark_end w /\
       (route_names_agree l -> r_name w' = r_name w) /\
       Permutation (rides_of l (r_id w)) (rides_of l' (r_id w)) /\
       rides_of l (r_id w) <> [] /\
       r_length w = div (mean 0 (rides_of l (r_id w)) zero) (of_Z 60) /\
       r_length w' = div (mean 0 (rides_of l' (r_id w)) zero) (of_Z 60)).
Proof.
  intros HP.
  pose proof (forallb_perm in_range _ _ HP) as Hrange.
  split.
  - intros e.
    destruct (aggregate_cases l) as [[Hok [ws Hws]] | [Hbad Hl]];
      destruct (aggregate_cases l') as [[Hok' [ws' Hws']] | [Hbad' Hl']];
      rewrite ?Hws, ?Hws', ?Hl, ?Hl';
      first [reflexivity | congruence | split; intros; discriminate].
  - intros ws ws' Hws Hws'.
    destruct (aggregate_spec R zero add sub div of_Z l) as [ks [Hnd [Hmem [Hs Hf]]]].
    destruct (aggregate_spec R zero add sub div of_Z l') as [ks' [Hnd' [Hmem' [Hs' Hf']]]].
    destruct (forallb in_range l) eqn:Hok;
      [|rewrite (Hf eq_refl) in Hws; discriminate].
    destruct (Hs eq_refl) as [ws0 [Hws0 Hw]].
    destruct (Hs' (eq_sym Hrange)) as [ws0' [Hws0' Hw']].
    rewrite Hws in Hws0; injection Hws0 as <-.
    rewrite Hws' in Hws0'; injection Hws0' as <-.
    assert (Hks : forall k, In k ks <-> In k ks').
    { intros k; rewrite Hmem, Hmem'; split; intros [r [Hr Hk]]; exists r;
        (split; [|exact Hk]).
      - exact (Permutation_in r HP Hr).
      - exact (Permutation_in r (Permutation_sym HP) Hr). }
    split.
    + rewrite (windows_of_ids R zero add sub div of_Z _ _ _ Hw),
              (windows_of_ids R zero add sub div of_Z _ _ _ Hw').
      apply NoDup_Permutation; auto.
    + intros w Hin.
      destruct (Forall2_in_right _ _ _ _ Hw Hin) as [k [Hk [r0 [rest [Hg ->]]]]].
      destruct (Forall2_in_left _ _ _ _ Hw' (proj1 (Hks k) Hk))
        as [w' [Hin' [r0' [rest' [Hg' ->]]]]].
      assert (HPg : Permutation (r0 :: rest) (r0' :: rest')).
      { rewrite <- Hg, <- Hg'; apply Permutation_filter_rides, HP. }
      assert (Hr0 : In r0 l /\ route_id r0 = k)
        by (apply rides_of_In; rewrite Hg; left; reflexivity).
      assert (Hr0' : In r0' l' /\ route_id r0' = k)
        by (apply rides_of_In; rewrite Hg'; left; reflexivity).
      destruct (window_perm _ _ _ _ HPg) as [He1 [He2 He3]].
      exists (win r0' (r0' :: rest')); split; [exact Hin'|].
      split; [cbn; rewrite (proj2 Hr0), (proj2 Hr0'); reflexivity|].
      split; [exact He1|split; [exact He2|split; [exact He3|split]]].
      * intros Hagree; cbn; symmetry; apply Hagree;
          [apply Hr0| |rewrite (proj2 Hr0), (proj2 Hr0'); reflexivity].
        eapply Permutation_in; [apply Permutation_sym, HP|apply Hr0'].
      * cbn [r_id r_length window]; rewrite (proj2 Hr0), Hg, Hg'.
        repeat split; [exact HPg|discriminate].
Qed.

End PermutationProps.

(** ** Exact averages *)

Local Abbreviation run_mean_Q := (run_mean Q Qplus Qminus Qdiv inject_Z).

Lemma run_mean_Q_sum i l m acc :
  0 <= i -> (inject_Z i * m == acc)%Q ->
  (run_mean_Q i l m * inject_Z (i + Z.of_nat (List.length l))
   == acc + inject_Z (sum_seconds l))%Q.
Proof.
  revert i m acc; induction l as [|r l IH]; intros i m acc Hi Hm.
  - cbn [run_mean List.length]; change (sum_seconds []) with 0.
    rewrite Z.add_0_r, Qplus_0_r, Qmult_comm; exact Hm.
  - cbn [run_mean List.length].
    change (sum_seconds (r :: l)) with (ride_seconds r + sum_seconds l).
    set (d := inject_Z (ride_seconds r)).
    set (x := inject_Z (i + 1)).
    assert (Hne : ~ (x == 0)%Q).
    { unfold x; change 0%Q with (inject_Z 0); rewrite inject_Z_injective; lia. }
    assert (Hx : (inject_Z i == x - 1)%Q).
    { unfold x; rewrite inject_Z_plus; change (inject_Z 1) with 1%Q; ring. }
    assert (Hstep : (x * (m + (d - m) / x) == acc + d)%Q).
    { rewrite <- Hm, Hx; field; exact Hne. }
    specialize (IH (i + 1) _ _ ltac:(lia) Hstep).
    rewrite Nat2Z.inj_succ, <- Z.add_1_l, Z.add_assoc, (Z.add_comm i 1).
    rewrite (Z.add_comm 1 i), IH, inject_Z_plus; unfold d; ring.
Qed.

Lemma run_mean_Q_mean g :
  g <> [] ->
  (run_mean_Q 0 g 0 == inject_Z (sum_seconds g) / inject_Z (Z.of_nat (List.length g)))%Q.
Proof.
  intros Hg.
  assert (Hne : ~ (inject_Z (Z.of_nat (List.length g)) == 0)%Q).
  { change 0%Q with (inject_Z 0); rewrite inject_Z_injective.
    destruct g; [congruence|cbn; lia]. }
  pose proof (run_mean_Q_sum 0 g 0 0 ltac:(lia) ltac:(reflexivity)) as H.
  rewrite Z.add_0_l, Qplus_0_l in H.
  rewrite <- H; field; exact Hne.
Qed.

(** ** The seconds of a ride *)

Lemma ride_seconds_eq ride :
  ride_seconds ride = (ride_duration_us ride mod us_per_day) / us_per_s.
Proof. reflexivity. Qed.

Ltac div_mod_facts d :=
  pose proof (Z.div_mod d (86400 * 1000000) ltac:(lia));
  pose proof (Z.mod_pos_bound d (86400 * 1000000) ltac:(lia));
  pose proof (Z.div_mod (d mod (86400 * 1000000)) 1000000 ltac:(lia));
  pose proof (Z.mod_pos_bound (d mod (86400 * 1000000)) 1000000 ltac:(lia));
  pose proof (Z.div_mod d 1000000 ltac:(lia));
  pose proof (Z.mod_pos_bound d 1000000 ltac:(lia)).

Lemma seconds_exact d :
  (d mod us_per_day) / us_per_s * us_per_s = d <->
  0 <= d < us_per_day /\ d mod us_per_s = 0.
Proof.
  unfold us_per_day, us_per_s; div_mod_facts d; split.
  - intros Heq; split; lia.
  - intros [Hd Hm]; lia.
Qed.

Lemma seconds_in_day d :
  0 <= d < us_per_day -> (d mod us_per_day) / us_per_s = d / us_per_s.
Proof. intros Hd; rewrite Z.mod_small by exact Hd; reflexivity. Qed.

Lemma seconds_negative d s :
  0 < s < 86400 -> d = - s * us_per_s -> (d mod us_per_day) / us_per_s = 86400 - s.
Proof.
  unfold us_per_day, us_per_s; intros Hs ->; div_mod_facts (- s * 1000000); lia.
Qed.

Lemma sum_seconds_exact g :
  (forall ride, In ride g ->
     0 <= ride_duration_us ride < us_per_day /\ ride_duration_us ride mod us_per_s = 0) ->
  sum_seconds g * us_per_s = fold_right Z.add 0 (map ride_duration_us g).
Proof.
  induction g as [|r g IH]; intros Hg; [reflexivity|].
  change (sum_seconds (r :: g)) with (ride_seconds r + sum_seconds g); cbn [map fold_right].
  rewrite Z.mul_add_distr_r, IH by (intros x Hx; apply Hg; right; exact Hx).
  rewrite ride_seconds_eq, (proj2 (seconds_exact _) (Hg r (or_introl eq_refl))).
  reflexivity.
Qed.

(** * Claims on the route averaging *)

(** C4 fails as stated: a ride starting at 23:56 on 9999-12-31 makes
    [start + timedelta(minutes=5)] overflow, and no route is produced. *)
Lemma aggregate_routes_windows_counterexample :
  aggregate_routes_float
    [sample_ride 1 (local_time last_day 23 56 0) (local_time last_day 23 58 0) 7 "R7"]
  = inl OverflowError.
Proof. reflexivity. Qed.

(** C4: when every ride's start plus 5 minutes and end plus 10 minutes stay
    within [datetime]'s range, the averaging returns one route per distinct
    route id (none for an empty list), each route's [embark_start] is at most
    the start time of day of each of its rides, its [embark_end] and
    [debark_end] at least their start + 5 min and end + 10 min times of day,
    and its id and name are those of one of its rides. *)
Theorem aggregate_routes_windows rides :
  forallb in_range rides = true ->
  exists ws, aggregate_routes_float rides = inr ws /\
    NoDup (map r_id ws) /\
    (forall k, In k (map r_id ws) <-> exists r, In r rides /\ route_id r = k) /\
    (rides = [] -> ws = []) /\
    (forall w r, In w ws -> In r rides -> route_id r = r_id w ->
       embark_start w <= start_tod r /\ embark_end_tod r <= embark_end w /\
       debark_end_tod r <= debark_end w) /\
    (forall w, In w ws ->
       exists r, In r rides /\ route_id r = r_id w /\ route_name r = r_name w).
Proof.
  intros Hok.
  destruct (aggregate_spec _ 0%float PrimFloat.add PrimFloat.sub PrimFloat.div
              float_of_Z rides) as [ks [Hnd [Hmem [Hsucc _]]]].
  destruct (Hsucc Hok) as [ws [Hagg Hws]].
  pose proof (windows_of_ids _ _ _ _ _ _ _ _ _ Hws) as Hids.
  exists ws; split; [exact Hagg|].
  rewrite Hids; split; [exact Hnd|split; [exact Hmem|split]].
  - intros ->; destruct ks as [|k ks]; [inversion Hws; reflexivity|].
    destruct (proj1 (Hmem k) (or_introl eq_refl)) as [r [[] _]].
  - split.
    + intros w r Hw Hr Hrk.
      destruct (Forall2_in_right _ _ _ _ Hws Hw) as [k [Hk [r0 [rest [Hrk0 ->]]]]].
      apply window_bounds; rewrite <- Hrk0; apply rides_of_In; split; [exact Hr|].
      rewrite Hrk; cbn.
      assert (Hr0 : In r0 (rides_of rides k)) by (rewrite Hrk0; left; reflexivity).
      apply rides_of_In in Hr0; apply Hr0.
    + intros w Hw.
      destruct (Forall2_in_right _ _ _ _ Hws Hw) as [k [Hk [r0 [rest [Hrk0 ->]]]]].
      assert (Hr0 : In r0 (rides_of rides k)) by (rewrite Hrk0; left; reflexivity).
      apply rides_of_In in Hr0 as [Hr0 _].
      exists r0; split; [exact Hr0|split; reflexivity].
Qed.

Lemma aggregate_routes_windows_witness :
  exists ws, aggregate_routes_float [morning_ride_1; route2_ride; morning_ride_2] = inr ws /\
    NoDup (map r_id ws) /\ List.length ws = 2%nat.
Proof.
  destruct (aggregate_routes_windows [morning_ride_1; route2_ride; morning_ride_2] eq_refl)
    as [ws [Hws [Hnd _]]].
  exists ws; split; [exact Hws|split; [exact Hnd|]].
  vm_compute in Hws; injection Hws as <-; reflexivity.
Defined.

(** C5: for the rides 08:00-08:20 and 08:10-08:25 of route 1, the route has
    embark start 08:00, embark end 08:15, debark end 08:35 and length 17.5
    minutes; the durations are 1200 s and 900 s and the length is the
    running mean [m1 = 0 + (1200 - 0)/1], [m2 = m1 + (900 - m1)/2] divided
    by 60. *)
Theorem average_sample_route :
  aggregate_routes_float [morning_ride_1; morning_ride_2] =
    inr [{| embark_start := (8 * 3600) * us_per_s;
            embark_end := (8 * 3600 + 15 * 60) * us_per_s;
            r_length := 17.5%float;
            debark_end := (8 * 3600 + 35 * 60) * us_per_s;
            r_id := 1; r_name := "R1" |}] /\
  ride_seconds morning_ride_1 = 1200 /\ ride_seconds morning_ride_2 = 900 /\
  (let m1 := (0 + (float_of_Z 1200 - 0) / float_of_Z 1)%float in
   let m2 := (m1 + (float_of_Z 900 - m1) / float_of_Z 2)%float in
   (m2 / float_of_Z 60)%float = 17.5%float).
Proof. vm_compute. repeat split; reflexivity. Qed.

(** C8: [average_route_polling_data([])] raises [IndexError] (from
    [data[0]]), which is none of the integration's error kinds; the groups
    built by the aggregation are never empty, and an empty ride list gives
    no routes. *)
Theorem average_empty_unguarded :
  average_route_polling_data_float [] = inl IndexError /\
  is_smart_tag_error IndexError = false /\
  (forall rides g, In g (map snd (group_by_route rides)) -> g <> []) /\
  aggregate_routes_float [] = inr [].
Proof.
  split; [reflexivity|split; [reflexivity|split; [|reflexivity]]].
  intros rides g Hg.
  destruct (group_by_route_spec rides) as [ks [_ [Hmem Heq]]].
  rewrite Heq, map_map in Hg; cbn in Hg.
  apply in_map_iff in Hg as [k [<- Hk]].
  destruct (rides_of_nonempty rides k (proj1 (Hmem k) Hk)) as [r0 [rest ->]].
  discriminate.
Qed.

(** C6 fails as stated: the route name is the one of the group's first ride
    in input order, so two rides of route 1 named differently give another
    name once swapped; and the routes come in the order of first occurrence
    of their ids. *)
Lemma aggregate_routes_permutation_counterexample :
  Permutation [morning_ride_1; renamed_ride] [renamed_ride; morning_ride_1] /\
  result_names (aggregate_routes_float [morning_ride_1; renamed_ride]) = ["R1"%string] /\
  result_names (aggregate_routes_float [renamed_ride; morning_ride_1]) = ["R1 PM"%string] /\
  Permutation [morning_ride_1; route2_ride] [route2_ride; morning_ride_1] /\
  result_ids (aggregate_routes_float [morning_ride_1; route2_ride]) = [1; 2] /\
  result_ids (aggregate_routes_float [route2_ride; morning_ride_1]) = [2; 1].
Proof.
  split; [apply perm_swap|].
  split; [vm_compute; reflexivity|].
  split; [vm_compute; reflexivity|].
  split; [apply perm_swap|].
  split; vm_compute; reflexivity.
Qed.

(** C6: for a permutation [l'] of [l], the aggregation of [l] fails exactly
    when that of [l'] does (with the same error); on success the route ids
    of [l'] are a permutation of those of [l], and each route of [l] has a
    route of [l'] with the same id and the same embark start, embark end and
    debark end; the names agree when all rides of a route carry the same
    name; the float lengths are the running means, divided by 60, of the
    route's group ([rides_of]) in [l] and in [l'], which are permutations of
    each other; over exact rationals the lengths are equal. *)
Theorem aggregate_routes_permutation l l' :
  Permutation l l' ->
  (forall e, aggregate_routes_float l = inl e <-> aggregate_routes_float l' = inl e) /\
  (forall ws ws', aggregate_routes_float l = inr ws -> aggregate_routes_float l' = inr ws' ->
     Permutation (map r_id ws) (map r_id ws') /\
     forall w, In w ws -> exists w', In w' ws' /\ r_id w' = r_id w /\
       embark_start w' = embark_start w /\ embark_end w' = embark_end w /\
       debark_end w' = debark_end w /\
       (route_names_agree l -> r_name w' = r_name w) /\
       Permutation (rides_of l (r_id w)) (rides_of l' (r_id w)) /\
       rides_of l (r_id w) <> [] /\
       r_length w = PrimFloat.div (run_mean float PrimFloat.add PrimFloat.sub PrimFloat.div
                                     float_of_Z 0 (rides_of l (r_id w)) 0%float) (float_of_Z 60) /\
       r_length w' = PrimFloat.div (run_mean float PrimFloat.add PrimFloat.sub PrimFloat.div
                                      float_of_Z 0 (rides_of l' (r_id w)) 0%float) (float_of_Z 60)) /\
  (forall qs qs', aggregate_routes_Q l = inr qs -> aggregate_routes_Q l' = inr qs' ->
     forall w, In w qs -> exists w', In w' qs' /\ r_id w' = r_id w /\
       (r_length w' == r_length w)%Q).
Proof.
  intros HP.
  destruct (aggregate_perm float 0%float PrimFloat.add PrimFloat.sub PrimFloat.div
              float_of_Z l l' HP) as [Herr Hok].
  split; [exact Herr|split; [exact Hok|]].
  intros qs qs' Hq Hq' w Hw.
  destruct (aggregate_perm Q 0%Q Qplus Qminus Qdiv inject_Z l l' HP) as [_ HokQ].
  destruct (HokQ qs qs' Hq Hq') as [_ Hall].
  destruct (Hall w Hw) as [w' [Hw' [Hid [_ [_ [_ [_ [HPg [Hg [Hl Hl']]]]]]]]]].
  exists w'; split; [exact Hw'|split; [exact Hid|]].
  assert (Hg' : rides_of l' (r_id w) <> []).
  { intros E; rewrite E in HPg; apply Hg, Permutation_nil, Permutation_sym, HPg. }
  rewrite Hl, Hl'; apply Qdiv_comp; [|reflexivity].
  rewrite (run_mean_Q_mean _ Hg), (run_mean_Q_mean _ Hg').
  rewrite (sum_seconds_perm _ _ HPg), (Permutation_length HPg); reflexivity.
Qed.

Lemma aggregate_routes_permutation_witness :
  Permutation [morning_ride_1; route2_ride] [route2_ride; morning_ride_1] /\
  (forall e, aggregate_routes_float [morning_ride_1; route2_ride] = inl e <->
             aggregate_routes_float [route2_ride; morning_ride_1] = inl e).
Proof.
  split; [apply perm_swap|].
  apply (proj1 (aggregate_routes_permutation [morning_ride_1; route2_ride]
                  [route2_ride; morning_ride_1] (perm_swap _ _ _))).
Defined.

(** C9: a ride contributes the [seconds] of [end - start]: its duration
    reduced modulo 24 hours and truncated to whole seconds.  This is the
    true duration exactly when the duration lies in [0, 24 h) and is a whole
    number of seconds, it is the truncated duration when the duration lies in
    [0, 24 h), and a ride ending [s] seconds (0 < s < 86400) before its start
    contributes [86400 - s].  Over exact rationals the length of a route is
    the sum of these contributions over [60 * n]; when every duration lies in
    [0, 24 h) and is a whole number of seconds, that sum is the sum of the
    true durations. *)
Theorem ride_seconds_contribution :
  (forall ride,
     ride_seconds ride = (ride_duration_us ride mod us_per_day) / us_per_s /\
     (ride_seconds ride * us_per_s = ride_duration_us ride <->
      0 <= ride_duration_us ride < us_per_day /\ ride_duration_us ride mod us_per_s = 0) /\
     (0 <= ride_duration_us ride < us_per_day ->
      ride_seconds ride = ride_duration_us ride / us_per_s) /\
     (forall s, 0 < s < 86400 -> ride_duration_us ride = - s * us_per_s ->
      ride_seconds ride = 86400 - s)) /\
  (forall g w, average_route_polling_data_Q g = inr w ->
     (r_length w == inject_Z (sum_seconds g) / inject_Z (60 * Z.of_nat (List.length g)))%Q /\
     ((forall ride, In ride g ->
         0 <= ride_duration_us ride < us_per_day /\ ride_duration_us ride mod us_per_s = 0) ->
      sum_seconds g * us_per_s = fold_right Z.add 0 (map ride_duration_us g))).
Proof.
  split.
  - intros ride; rewrite ride_seconds_eq.
    split; [reflexivity|split; [apply seconds_exact|split]].
    + apply seconds_in_day.
    + apply seconds_negative.
  - intros g w Hw; split; [|apply sum_seconds_exact].
    destruct g as [|r0 rest]; [discriminate|].
    unfold average_route_polling_data_Q in Hw.
    destruct (forallb in_range (r0 :: rest)) eqn:Hok;
      [|rewrite (average_error _ _ _ _ _ _ _ Hok) in Hw; discriminate].
    rewrite (average_ok _ _ _ _ _ _ r0 rest Hok) in Hw; injection Hw as <-.
    cbn [r_length window].
    assert (Hg : r0 :: rest <> []) by discriminate.
    assert (Hne : ~ (inject_Z (Z.of_nat (List.length (r0 :: rest))) == 0)%Q).
    { change 0%Q with (inject_Z 0); rewrite inject_Z_injective; cbn; lia. }
    rewrite (run_mean_Q_mean _ Hg), inject_Z_mult.
    field; repeat split; first [exact Hne | discriminate | idtac].
Qed.

(** * Further properties of the code *)

(** ** Helpers *)

Lemma api_try_pass r :
  status r < 400 \/ status r = 400 \/ status r = 404 -> api_try (Response r) = inr r.
Proof.
  intros Hs; unfold api_try, session_result, raise_response_error, ok.
  destruct (Z.eqb_spec (status r) 401); [lia|].
  destruct (Z.eqb_spec (status r) 403); [lia|].
  destruct (Z.eqb_spec (status r) 400), (Z.eqb_spec (status r) 404); cbn; try reflexivity.
  destruct (Z.ltb_spec (status r) 400); [reflexivity|lia].
Qed.

Lemma api_try_failed r :
  400 <= status r -> status r <> 400 -> status r <> 401 -> status r <> 403 ->
  status r <> 404 -> api_try (Response r) = inl SmartTagApiNetworkError.
Proof.
  intros H1 H2 H3 H4 H5; unfold api_try, session_result, raise_response_error, ok.
  rewrite (proj2 (Z.eqb_neq _ _) H3), (proj2 (Z.eqb_neq _ _) H4),
    (proj2 (Z.eqb_neq _ _) H2), (proj2 (Z.eqb_neq _ _) H5); cbn.
  destruct (Z.ltb_spec (status r) 400); [lia|reflexivity].
Qed.

(** ** api.py *)

(** X1: A login answered with a status below 400 (or 404) and a JSON body
    holding "token" succeeds after exactly one request. *)
Theorem login_success session email pw st r j t :
  (forall req, session (List.length (calls st)) req = Response r) ->
  status r < 400 \/ status r = 404 ->
  body r = Some j -> getitem j "token" = inr t ->
  login session email pw st =
  (inr tt,
   {| tokens := {| access_token := t;
                   refresh_token := match cookie_refresh r with
                                    | Some c => JStr (unquote c)
                                    | None => JNull
                                    end |};
      calls := calls st ++
        [{| req_method := "POST"; req_path := "user/login"; req_query := [];
            req_headers := None;
            req_data := Some (JObj [("username"%string, JStr email);
                                    ("password"%string, JStr pw)]) |}] |}).
Proof.
  intros Hs Hst Hb Ht.
  assert (Ha : api_try (Response r) = inr r) by (apply api_try_pass; lia).
  assert (H400 : (status r =? 400) = false) by (apply Z.eqb_neq; lia).
  unfold_client; rewrite Hs, Ha; cbn; rewrite H400, Hb; cbn.
  destruct (cookie_refresh r); cbn; rewrite Ht; reflexivity.
Qed.

Lemma login_success_witness :
  login (answer (resp 200 (Some (JObj [("token"%string, JStr "t")])) (Some "r%3D1"%string)))
    "e" "p" fresh_client =
  (inr tt,
   {| tokens := {| access_token := JStr "t"; refresh_token := JStr "r=1" |};
      calls := [{| req_method := "POST"; req_path := "user/login"; req_query := [];
                   req_headers := None;
                   req_data := Some (JObj [("username"%string, JStr "e");
                                           ("password"%string, JStr "p")]) |}] |}).
Proof.
  rewrite (login_success _ _ _ fresh_client
             (resp 200 (Some (JObj [("token"%string, JStr "t")])) (Some "r%3D1"%string))
             (JObj [("token"%string, JStr "t")]) (JStr "t")
             (fun _ => eq_refl) (or_introl eq_refl) eq_refl eq_refl).
  reflexivity.
Defined.

(** X2: [refresh_access_token] without both tokens raises [SmartTagApiAuthError]
    before sending anything and changes nothing. *)
Theorem refresh_without_tokens session st :
  is_None (access_token (tokens st)) = true \/ is_None (refresh_token (tokens st)) = true ->
  refresh_access_token session st = (inl SmartTagApiAuthError, st).
Proof.
  intros H; unfold refresh_access_token, bind at 1, get_client; cbn.
  destruct H as [H|H]; rewrite H; [reflexivity|].
  rewrite orb_true_r; reflexivity.
Qed.

Lemma refresh_without_tokens_witness :
  refresh_access_token (answer (resp 200 None None)) fresh_client
  = (inl SmartTagApiAuthError, fresh_client).
Proof. exact (refresh_without_tokens _ fresh_client (or_introl eq_refl)). Defined.

(** X3: With both tokens held, a refresh answered with an error status sends
    one request (POST user/refresh with both tokens and no Authorization
    header) and leaves the tokens unchanged; only 400 and 404 reach the
    [if not response.ok] test and raise [SmartTagApiAuthError]. *)
Theorem refresh_rejected session st r :
  is_None (access_token (tokens st)) = false ->
  is_None (refresh_token (tokens st)) = false ->
  (forall req, session (List.length (calls st)) req = Response r) ->
  400 <= status r ->
  calls (snd (refresh_access_token session st)) =
    calls st ++
      [{| req_method := "POST"; req_path := "user/refresh"; req_query := [];
          req_headers := None;
          req_data := Some (JObj [("token"%string, access_token (tokens st));
                                  ("refreshToken"%string, refresh_token (tokens st))]) |}] /\
  tokens (snd (refresh_access_token session st)) = tokens st /\
  (status r = 400 \/ status r = 404 ->
   fst (refresh_access_token session st) = inl SmartTagApiAuthError) /\
  (status r = 401 \/ status r = 403 ->
   fst (refresh_access_token session st) = inl SmartTagApiError) /\
  (status r <> 400 -> status r <> 401 -> status r <> 403 -> status r <> 404 ->
   fst (refresh_access_token session st) = inl SmartTagApiNetworkError).
Proof.
  intros Ha Hr Hs Hst.
  assert (Hok : ok r = false) by (unfold ok; apply Z.ltb_ge; lia).
  assert (Hcase : api_try (Response r) = inr r /\ (status r = 400 \/ status r = 404) \/
                  api_try (Response r) = inl SmartTagApiError /\ (status r = 401 \/ status r = 403) \/
                  api_try (Response r) = inl SmartTagApiNetworkError /\
                  status r <> 400 /\ status r <> 401 /\ status r <> 403 /\ status r <> 404).
  { destruct (Z.eq_dec (status r) 400) as [E|N0];
      [left; split; [apply api_try_pass|]; lia|].
    destruct (Z.eq_dec (status r) 404) as [E|N4];
      [left; split; [apply api_try_pass|]; lia|].
    destruct (Z.eq_dec (status r) 401) as [E|N1];
      [right; left; split; [apply api_try_rejected|]; lia|].
    destruct (Z.eq_dec (status r) 403) as [E|N3];
      [right; left; split; [apply api_try_rejected|]; lia|].
    right; right; split; [apply api_try_failed|]; auto. }
  unfold_client; rewrite Ha, Hr; cbn; rewrite Hs.
  destruct Hcase as [[Ht Hst'] | [[Ht Hst'] | [Ht Hst']]]; rewrite Ht; cbn;
    try rewrite Hok; cbn; repeat split; intros; try reflexivity; exfalso; lia.
Qed.

Lemma refresh_rejected_witness :
  fst (refresh_access_token (answer (resp 400 None None)) logged_in) = inl SmartTagApiAuthError.
Proof.
  exact (proj1 (proj2 (proj2 (refresh_rejected (answer (resp 400 None None)) logged_in
                                 (resp 400 None None) eq_refl eq_refl (fun _ => eq_refl)
                                 ltac:(cbn; lia))))
           (or_introl eq_refl)).
Defined.


(** [get_students] and [get_rides] with an access token held: one request,
    then the decoding of the body; the tokens are not touched. *)
Lemma get_students_unfold session st :
  is_None (access_token (tokens st)) = false ->
  get_students session st =
  (let req := {| req_method := "GET"; req_path := "parent/all-students"; req_query := [];
                 req_headers := Some (access_token (tokens st)); req_data := None |} in
   (match api_try (session (List.length (calls st)) req) with
    | inl e => inl e
    | inr r =>
        match body r with
        | None => inl JsonDecodeError
        | Some j =>
            match py_iter j with
            | inl e => inl e
            | inr items => map_result Student_from_dict items
            end
        end
    end,
    {| tokens := tokens st; calls := calls st ++ [req] |})).
Proof.
  intros H.
  unfold get_students, bind at 1, get_client; cbn [fst snd]; rewrite H.
  unfold bind at 1; rewrite authed_api_wrapper_one_call.
  unfold api_wrapper, bearer_headers; rewrite H.
  unfold bind, send, lift, response_json, ret, throw; cbn.
  destruct (api_try _) as [e|r]; [reflexivity|].
  destruct (body r) as [j|]; [|reflexivity].
  destruct (py_iter j); reflexivity.
Qed.

Lemma get_rides_unfold session Ride_from_dict st sid limit :
  is_None (access_token (tokens st)) = false ->
  get_rides session Ride_from_dict sid limit st =
  (let req := {| req_method := "GET"; req_path := "student/riding-activity";
                 req_query := [("studentid"%string, JStr sid); ("pageIndex"%string, JNum 0);
                               ("pageSize"%string, JNum limit)];
                 req_headers := Some (access_token (tokens st)); req_data := None |} in
   (match api_try (session (List.length (calls st)) req) with
    | inl e => inl e
    | inr r =>
        match body r with
        | None => inl JsonDecodeError
        | Some j =>
            match getitem j "data" with
            | inl e => inl e
            | inr data =>
                match py_iter data with
                | inl e => inl e
                | inr items => map_result Ride_from_dict items
                end
            end
        end
    end,
    {| tokens := tokens st; calls := calls st ++ [req] |})).
Proof.
  intros H.
  unfold get_rides, bind at 1, get_client; cbn [fst snd]; rewrite H.
  unfold bind at 1; rewrite authed_api_wrapper_one_call.
  unfold api_wrapper, bearer_headers; rewrite H.
  unfold bind, send, lift, response_json, ret, throw; cbn.
  destruct (api_try _) as [e|r]; [reflexivity|].
  destruct (body r) as [j|]; [|reflexivity].
  destruct (getitem j "data") as [e|data]; [reflexivity|].
  destruct (py_iter data); reflexivity.
Qed.

Lemma get_students_no_token session st :
  is_None (access_token (tokens st)) = true ->
  get_students session st = (inl SmartTagApiAuthError, st).
Proof.
  intros H; unfold get_students, bind at 1, get_client; cbn; rewrite H; reflexivity.
Qed.

Lemma get_rides_no_token session Ride_from_dict st sid limit :
  is_None (access_token (tokens st)) = true ->
  get_rides session Ride_from_dict sid limit st = (inl SmartTagApiAuthError, st).
Proof.
  intros H; unfold get_rides, bind at 1, get_client; cbn; rewrite H; reflexivity.
Qed.

Lemma Student_from_dict_err v e :
  Student_from_dict v = inl e -> e = KeyError \/ e = TypeError.
Proof.
  unfold Student_from_dict, getitem.
  destruct v; try (intros H; injection H as <-; auto).
  destruct (assoc_last "campus" kvs), (assoc_last "externalId" kvs),
    (assoc_last "fullName" kvs), (assoc_last "id" kvs), (assoc_last "grade" kvs);
    intros H; try discriminate; injection H as <-; auto.
Qed.

Lemma map_result_err {A B : Type} (f : A -> exn + B) (P : exn -> Prop) l e :
  (forall x e', f x = inl e' -> P e') -> map_result f l = inl e -> P e.
Proof.
  intros Hf; induction l as [|x l IH]; cbn; [discriminate|].
  destruct (f x) eqn:Hx; [intros H; injection H as <-; eapply Hf; eauto|].
  destruct (map_result f l); [auto|discriminate].
Qed.

Lemma py_iter_err j e : py_iter j = inl e -> e = TypeError.
Proof. destruct j; cbn; try discriminate; intros H; injection H as <-; reflexivity. Qed.

Lemma getitem_err_kind j k e : getitem j k = inl e -> e = KeyError \/ e = TypeError.
Proof.
  unfold getitem; destruct j; try (intros H; injection H as <-; auto).
  destruct (assoc_last k kvs); intros H; [discriminate|injection H as <-; auto].
Qed.

(** X4: With an access token held, [get_students] and [get_rides] each send
    exactly one request, with the token as bearer header and no body, and
    never change the tokens, whatever the server answers. *)
Theorem authed_calls_one_request session Ride_from_dict st sid limit :
  is_None (access_token (tokens st)) = false ->
  tokens (snd (get_students session st)) = tokens st /\
  calls (snd (get_students session st)) =
    calls st ++ [{| req_method := "GET"; req_path := "parent/all-students"; req_query := [];
                    req_headers := Some (access_token (tokens st)); req_data := None |}] /\
  tokens (snd (get_rides session Ride_from_dict sid limit st)) = tokens st /\
  calls (snd (get_rides session Ride_from_dict sid limit st)) =
    calls st ++ [{| req_method := "GET"; req_path := "student/riding-activity";
                    req_query := [("studentid"%string, JStr sid); ("pageIndex"%string, JNum 0);
                                  ("pageSize"%string, JNum limit)];
                    req_headers := Some (access_token (tokens st)); req_data := None |}].
Proof.
  intros H; rewrite get_students_unfold, get_rides_unfold by exact H.
  repeat split; reflexivity.
Qed.

Lemma authed_calls_one_request_witness :
  calls (snd (get_rides (answer (resp 500 None None)) (fun _ => inl KeyError) "42" 50 logged_in))
  = [{| req_method := "GET"; req_path := "student/riding-activity";
        req_query := [("studentid"%string, JStr "42"); ("pageIndex"%string, JNum 0);
                      ("pageSize"%string, JNum 50)];
        req_headers := Some (JStr "a"); req_data := None |}].
Proof.
  exact (proj2 (proj2 (proj2 (authed_calls_one_request (answer (resp 500 None None))
                                 (fun _ => inl KeyError) logged_in "42" 50 eq_refl)))).
Defined.

(** X5: [get_students] raises [SmartTagApiAuthError] exactly when no access
    token is held; so does [get_rides] as long as [Ride.from_dict] raises
    none of the integration's errors. *)
Theorem auth_error_only_without_token session Ride_from_dict st sid limit :
  (fst (get_students session st) = inl SmartTagApiAuthError <->
   is_None (access_token (tokens st)) = true) /\
  ((forall j e, Ride_from_dict j = inl e -> is_smart_tag_error e = false) ->
   fst (get_rides session Ride_from_dict sid limit st) = inl SmartTagApiAuthError <->
   is_None (access_token (tokens st)) = true).
Proof.
  destruct (is_None (access_token (tokens st))) eqn:H.
  - rewrite get_students_no_token, get_rides_no_token by exact H.
    split; [tauto|intros _; tauto].
  - rewrite get_students_unfold, get_rides_unfold by exact H; cbn [fst].
    split; [|intros HR]; split; intros E; try discriminate; exfalso.
    + destruct (api_try _) as [e|r] eqn:Ht;
        [injection E as ->; exact (api_try_not_auth _ Ht)|].
      destruct (body r) as [j|]; [|discriminate].
      destruct (py_iter j) eqn:Hp;
        [injection E as ->; apply py_iter_err in Hp; discriminate|].
      apply (map_result_err _ (fun e => e = KeyError \/ e = TypeError)) in E;
        [destruct E; discriminate|apply Student_from_dict_err].
    + destruct (api_try _) as [e|r] eqn:Ht;
        [injection E as ->; exact (api_try_not_auth _ Ht)|].
      destruct (body r) as [j|]; [|discriminate].
      destruct (getitem j "data") eqn:Hg;
        [injection E as ->; destruct (getitem_err_kind _ _ _ Hg); discriminate|].
      destruct (py_iter j0) eqn:Hp;
        [injection E as ->; apply py_iter_err in Hp; discriminate|].
      apply (map_result_err _ (fun e => is_smart_tag_error e = false)) in E;
        [discriminate|exact HR].
Qed.

(** X6: [Student.from_dict] succeeds exactly on a dict holding the five keys,
    and then copies their values; on a dict missing one of them it raises
    [KeyError], on any other value [TypeError]. *)
Theorem Student_from_dict_spec v :
  (forall s, Student_from_dict v = inr s <->
     exists kvs, v = JObj kvs /\
       assoc_last "campus" kvs = Some (campus s) /\
       assoc_last "externalId" kvs = Some (external_id s) /\
       assoc_last "fullName" kvs = Some (full_name s) /\
       assoc_last "id" kvs = Some (student_id s) /\
       assoc_last "grade" kvs = Some (grade s)) /\
  (forall e, Student_from_dict v = inl e ->
     (e = TypeError /\ forall kvs, v <> JObj kvs) \/
     (e = KeyError /\ exists kvs k, v = JObj kvs /\
        In k ["campus"; "externalId"; "fullName"; "id"; "grade"]%string /\
        assoc_last k kvs = None)).
Proof.
  split.
  - intros s; unfold Student_from_dict, getitem; split.
    + destruct v; try discriminate.
      destruct (assoc_last "campus" kvs) eqn:H1, (assoc_last "externalId" kvs) eqn:H2,
        (assoc_last "fullName" kvs) eqn:H3, (assoc_last "id" kvs) eqn:H4,
        (assoc_last "grade" kvs) eqn:H5; intros H; try discriminate.
      injection H as <-; exists kvs; cbn; repeat split; assumption.
    + intros [kvs [-> [H1 [H2 [H3 [H4 H5]]]]]].
      rewrite H1, H2, H3, H4, H5; destruct s; reflexivity.
  - intros e; unfold Student_from_dict, getitem.
    destruct v; try (intros H; injection H as <-; left; split;
                      [reflexivity|intros kvs' Hk; discriminate]).
    right.
    destruct (assoc_last "campus" kvs) eqn:H1, (assoc_last "externalId" kvs) eqn:H2,
      (assoc_last "fullName" kvs) eqn:H3, (assoc_last "id" kvs) eqn:H4,
      (assoc_last "grade" kvs) eqn:H5; try discriminate;
      injection H as <-; split; try reflexivity; exists kvs;
      first [ exists "campus"%string; split; [reflexivity|split; [cbn; tauto|assumption]]
            | exists "externalId"%string; split; [reflexivity|split; [cbn; tauto|assumption]]
            | exists "fullName"%string; split; [reflexivity|split; [cbn; tauto|assumption]]
            | exists "id"%string; split; [reflexivity|split; [cbn; tauto|assumption]]
            | exists "grade"%string; split; [reflexivity|split; [cbn; tauto|assumption]] ].
Qed.

Lemma dict_keys_nonempty kv rest : dict_keys (kv :: rest) <> [].
Proof.
  unfold dict_keys; cbn [fold_left existsb].
  assert (G : forall l (acc : list string), acc <> [] ->
            fold_left (fun (acc : list string) (kv : string * json) => if existsb (String.eqb (fst kv)) acc then acc
                                     else acc ++ [fst kv]) l acc <> []).
  { induction l as [|kv' l IH]; intros acc Hacc; [exact Hacc|].
    cbn [fold_left]; apply IH.
    destruct (existsb _ acc); [exact Hacc|].
    destruct acc; [contradiction|discriminate]. }
  apply G; discriminate.
Qed.

(** X7: What [get_students] returns for the body of a response that passed
    [_raise_response_error] (status below 400, or 400 or 404): the body is
    iterated, so a JSON object gives [[]] when empty and [TypeError]
    otherwise (its keys are strings), a string likewise, and a list gives
    its items through [Student.from_dict], in order. *)
Theorem get_students_body session st r j :
  is_None (access_token (tokens st)) = false ->
  (forall req, session (List.length (calls st)) req = Response r) ->
  status r < 400 \/ status r = 400 \/ status r = 404 ->
  body r = Some j ->
  (forall kvs, j = JObj kvs ->
     fst (get_students session st) = match kvs with [] => inr [] | _ => inl TypeError end) /\
  (forall s, j = JStr s ->
     fst (get_students session st) = match s with EmptyString => inr [] | _ => inl TypeError end) /\
  (forall items, j = JArr items ->
     fst (get_students session st) = map_result Student_from_dict items) /\
  (j = JNull \/ (exists b, j = JBool b) \/ (exists z, j = JNum z) ->
     fst (get_students session st) = inl TypeError).
Proof.
  intros Ht Hs Hst Hb.
  rewrite get_students_unfold by exact Ht; cbn [fst]; rewrite Hs, api_try_pass, Hb by exact Hst.
  split; [|split; [|split]].
  - intros kvs ->; cbn [py_iter]; destruct kvs as [|kv rest]; [reflexivity|].
    destruct (dict_keys (kv :: rest)) as [|k ks] eqn:Hk; [contradiction (dict_keys_nonempty kv rest)|].
    reflexivity.
  - intros s ->; destruct s; reflexivity.
  - intros items ->; reflexivity.
  - intros [->|[[b ->]|[z ->]]]; reflexivity.
Qed.

Lemma get_students_body_witness :
  fst (get_students (answer (resp 200 (Some (JObj [("students"%string, JArr [])])) None))
         logged_in) = inl TypeError.
Proof.
  exact (proj1 (get_students_body _ logged_in
                  (resp 200 (Some (JObj [("students"%string, JArr [])])) None)
                  (JObj [("students"%string, JArr [])]) eq_refl (fun _ => eq_refl)
                  (or_introl eq_refl) eq_refl) _ eq_refl).
Defined.

(** X8: What [get_rides] returns for the body of a response that passed
    [_raise_response_error]: [KeyError] for a dict without "data",
    [TypeError] for a body that is not a dict, and the items of "data"
    through [Ride.from_dict] otherwise. *)
Theorem get_rides_body session Ride_from_dict st sid limit r j :
  is_None (access_token (tokens st)) = false ->
  (forall req, session (List.length (calls st)) req = Response r) ->
  status r < 400 \/ status r = 400 \/ status r = 404 ->
  body r = Some j ->
  (forall kvs, j = JObj kvs -> assoc_last "data" kvs = None ->
     fst (get_rides session Ride_from_dict sid limit st) = inl KeyError) /\
  ((forall kvs, j <> JObj kvs) ->
     fst (get_rides session Ride_from_dict sid limit st) = inl TypeError) /\
  (forall items, getitem j "data" = inr (JArr items) ->
     fst (get_rides session Ride_from_dict sid limit st) = map_result Ride_from_dict items).
Proof.
  intros Ht Hs Hst Hb.
  rewrite get_rides_unfold by exact Ht; cbn [fst]; rewrite Hs, api_try_pass, Hb by exact Hst.
  split; [|split].
  - intros kvs -> Hd; cbn [getitem]; rewrite Hd; reflexivity.
  - intros Hn; destruct j; try reflexivity; exfalso; exact (Hn kvs eq_refl).
  - intros items ->; reflexivity.
Qed.

Lemma get_rides_body_witness :
  fst (get_rides (answer (resp 200 (Some (JObj [("items"%string, JArr [])])) None))
         (fun _ => inl KeyError) "7" 50 logged_in) = inl KeyError.
Proof.
  exact (proj1 (get_rides_body _ (fun _ => inl KeyError) logged_in "7" 50
                  (resp 200 (Some (JObj [("items"%string, JArr [])])) None)
                  (JObj [("items"%string, JArr [])]) eq_refl (fun _ => eq_refl)
                  (or_introl eq_refl) eq_refl) _ eq_refl eq_refl).
Defined.

(** ** config_flow.py: grouping and averaging *)

Lemma existsb_Z_In x l : existsb (Z.eqb x) l = true <-> In x l.
Proof.
  rewrite existsb_exists; split.
  - intros [y [Hy E]]; apply Z.eqb_eq in E; subst; exact Hy.
  - intros H; exists x; split; [exact H|apply Z.eqb_refl].
Qed.

Lemma first_occurrences_snoc l x :
  first_occurrences (l ++ [x]) =
  if existsb (Z.eqb x) (first_occurrences l) then first_occurrences l
  else first_occurrences l ++ [x].
Proof. unfold first_occurrences; rewrite fold_left_app; reflexivity. Qed.

Lemma first_occurrences_spec l :
  NoDup (first_occurrences l) /\ forall k, In k (first_occurrences l) <-> In k l.
Proof.
  induction l as [|x l IH] using rev_ind; [split; [constructor|intros k; reflexivity]|].
  destruct IH as [Hnd Hin]; rewrite first_occurrences_snoc.
  destruct (existsb (Z.eqb x) (first_occurrences l)) eqn:E.
  - apply existsb_Z_In in E; split; [exact Hnd|].
    intros k; rewrite Hin, in_app_iff; cbn; split; [tauto|].
    intros [H|[<-|[]]]; [exact H|apply Hin, E].
  - split.
    + apply NoDup_app; [exact Hnd|constructor; [intros []|constructor]|].
      intros k Hk [<-|[]]; apply Bool.not_true_iff_false in E; apply E, existsb_Z_In, Hk.
    + intros k; rewrite !in_app_iff, Hin; reflexivity.
Qed.

Lemma group_by_route_first l :
  group_by_route l = map (fun k => (k, rides_of l k)) (first_occurrences (map route_id l)).
Proof.
  induction l as [|x l IH] using rev_ind; [reflexivity|].
  unfold group_by_route in *; rewrite fold_left_app, IH; cbn [fold_left].
  rewrite map_app; cbn [map]; rewrite first_occurrences_snoc.
  destruct (first_occurrences_spec (map route_id l)) as [Hnd Hin].
  destruct (existsb (Z.eqb (route_id x)) (first_occurrences (map route_id l))) eqn:E.
  - apply existsb_Z_In in E; apply group_insert_old; assumption.
  - rewrite group_insert_new.
    + rewrite map_app; cbn; f_equal; f_equal; f_equal.
      rewrite rides_of_snoc, Z.eqb_refl, rides_of_none; [reflexivity|].
      intros r Hr Hrk; apply Bool.not_true_iff_false in E; apply E, existsb_Z_In, Hin.
      rewrite <- Hrk; apply in_map, Hr.
    + intros H; apply Bool.not_true_iff_false in E; apply E, existsb_Z_In, H.
Qed.

Lemma filter_partition_perm {A : Type} (f : A -> bool) l :
  Permutation (filter f l ++ filter (fun x => negb (f x)) l) l.
Proof.
  induction l as [|x l IH]; [constructor|]; cbn.
  destruct (f x); cbn; [apply perm_skip, IH|].
  apply Permutation_sym, Permutation_cons_app, Permutation_sym, IH.
Qed.

Lemma filter_filter_impl {A : Type} (p q : A -> bool) l :
  (forall x, p x = true -> q x = true) -> filter p (filter q l) = filter p l.
Proof.
  intros Hpq; induction l as [|x l IH]; [reflexivity|]; cbn.
  destruct (q x) eqn:Eq; cbn; destruct (p x) eqn:Ep; rewrite ?IH; try reflexivity.
  rewrite (Hpq x Ep) in Eq; discriminate.
Qed.

Lemma concat_rides_of_perm ks l :
  NoDup ks -> (forall r, In r l -> In (route_id r) ks) ->
  Permutation (List.concat (map (rides_of l) ks)) l.
Proof.
  revert l; induction ks as [|k ks IH]; intros l Hnd Hl.
  - destruct l as [|r l]; [constructor|destruct (Hl r (or_introl eq_refl))].
  - inversion Hnd as [|? ? Hk Hnd']; subst.
    set (l' := filter (fun r => negb (route_id r =? k)) l).
    assert (Heq : map (rides_of l) ks = map (rides_of l') ks).
    { apply map_ext_in; intros k' Hk'; unfold rides_of, l'.
      symmetry; apply filter_filter_impl; intros r E.
      apply Z.eqb_eq in E; subst k'.
      destruct (Z.eqb_spec (route_id r) k); [subst; contradiction|reflexivity]. }
    cbn [map List.concat]; rewrite Heq.
    eapply perm_trans; [apply Permutation_app_head, IH; [exact Hnd'|]|].
    + intros r Hr; unfold l' in Hr; apply filter_In in Hr as [Hr Hne].
      destruct (Hl r Hr) as [E|E]; [|exact E].
      subst; rewrite Z.eqb_refl in Hne; discriminate.
    + apply filter_partition_perm.
Qed.

(** X10: The [routes] dict of [async_step_choose_times]: its keys are the
    distinct route ids in order of first appearance, the list under each
    key holds the rides with that route id in input order, and together the
    lists hold every ride exactly once. *)
Theorem group_by_route_partition l :
  map fst (group_by_route l) = first_occurrences (map route_id l) /\
  (forall k g, In (k, g) (group_by_route l) -> g = filter (fun r => route_id r =? k) l) /\
  Permutation (List.concat (map snd (group_by_route l))) l.
Proof.
  rewrite group_by_route_first.
  destruct (first_occurrences_spec (map route_id l)) as [Hnd Hin].
  split; [|split].
  - rewrite map_map; apply map_id.
  - intros k g H; apply in_map_iff in H as [k' [E _]]; injection E as <- <-; reflexivity.
  - rewrite map_map; cbn; apply concat_rides_of_perm; [exact Hnd|].
    intros r Hr; apply Hin, in_map, Hr.
Qed.

Lemma fold_min_lower xs a lo :
  lo <= a -> (forall x, In x xs -> lo <= x) -> lo <= fold_left Z.min xs a.
Proof.
  revert a; induction xs as [|x xs IH]; intros a Ha Hx; cbn; [exact Ha|].
  apply IH; [|intros y Hy; apply Hx; right; exact Hy].
  pose proof (Hx x (or_introl eq_refl)); lia.
Qed.

Lemma fold_max_upper xs a hi :
  a < hi -> (forall x, In x xs -> x < hi) -> fold_left Z.max xs a < hi.
Proof.
  revert a; induction xs as [|x xs IH]; intros a Ha Hx; cbn; [exact Ha|].
  apply IH; [|intros y Hy; apply Hx; right; exact Hy].
  pose proof (Hx x (or_introl eq_refl)); lia.
Qed.

Lemma average_window_gen R zero add sub div of_Z g w :
  average_route_polling_data R zero add sub div of_Z g = inr w ->
  exists r0 rest, g = r0 :: rest /\ forallb in_range g = true /\
    w = window R zero add sub div of_Z r0 (r0 :: rest).
Proof.
  intros H; destruct g as [|r0 rest]; [discriminate|].
  destruct (forallb in_range (r0 :: rest)) eqn:Hok;
    [|rewrite (average_error _ _ _ _ _ _ _ Hok) in H; discriminate].
  rewrite (average_ok _ _ _ _ _ _ r0 rest Hok) in H; injection H as <-.
  exists r0, rest; auto.
Qed.

Lemma tod_bounds z : 0 <= z mod us_per_day < us_per_day.
Proof. apply Z.mod_pos_bound; unfold us_per_day, us_per_s; lia. Qed.

Lemma ride_seconds_bounds r : 0 <= ride_seconds r <= 86399.
Proof.
  rewrite ride_seconds_eq; unfold us_per_day, us_per_s.
  div_mod_facts (ride_duration_us r); lia.
Qed.

Lemma sum_seconds_bounds g :
  0 <= sum_seconds g <= 86399 * Z.of_nat (List.length g).
Proof.
  induction g as [|r g IH]; [cbn; lia|].
  change (sum_seconds (r :: g)) with (ride_seconds r + sum_seconds g).
  pose proof (ride_seconds_bounds r); cbn [List.length]; lia.
Qed.

(** X11: The times of a route computed by [average_route_polling_data] are
    times of day, and [embark_start] is never later than 23:59:59, the
    initial value of the running minimum, even when every ride of the group
    starts later. *)
Theorem average_times_of_day g w :
  average_route_polling_data_float g = inr w ->
  0 <= embark_start w <= 86399 * us_per_s /\
  0 <= embark_end w < us_per_day /\
  0 <= debark_end w < us_per_day.
Proof.
  intros H; apply average_window_gen in H as [r0 [rest [-> [_ ->]]]].
  cbn [embark_start embark_end debark_end window].
  split; [split|split; split].
  - apply fold_min_lower; [unfold us_per_s; lia|].
    intros x Hx; apply in_map_iff in Hx as [r [<- _]]; apply tod_bounds.
  - apply (proj1 (fold_min_le _ _)).
  - apply (proj1 (fold_max_ge _ _)).
  - apply fold_max_upper; [unfold us_per_day, us_per_s; lia|].
    intros x Hx; apply in_map_iff in Hx as [r [<- _]]; apply tod_bounds.
  - apply (proj1 (fold_max_ge _ _)).
  - apply fold_max_upper; [unfold us_per_day, us_per_s; lia|].
    intros x Hx; apply in_map_iff in Hx as [r [<- _]]; apply tod_bounds.
Qed.

Lemma average_times_of_day_witness :
  exists w, average_route_polling_data_float [morning_ride_1] = inr w /\
    0 <= embark_start w <= 86399 * us_per_s.
Proof.
  destruct (average_route_polling_data_float [morning_ride_1]) as [e|w] eqn:H;
    [vm_compute in H; discriminate|].
  exists w; split; [reflexivity|].
  exact (proj1 (average_times_of_day [morning_ride_1] w H)).
Defined.

(** X12: A group whose rides all start at 23:55 or later gets an embark window
    that wraps past midnight: [embark_end] (start plus five minutes, as a
    time of day) is smaller than [embark_start]. *)
Theorem late_rides_window_wraps g w :
  average_route_polling_data_float g = inr w ->
  (forall r, In r g -> 86100 * us_per_s <= start_tod r) ->
  embark_end w < five_minutes /\ 86100 * us_per_s <= embark_start w /\
  embark_end w < embark_start w.
Proof.
  intros H Hlate; apply average_window_gen in H as [r0 [rest [-> [_ ->]]]].
  cbn [embark_start embark_end window].
  assert (Hee : fold_left Z.max (map embark_end_tod (r0 :: rest)) 0 < five_minutes).
  { apply fold_max_upper; [unfold five_minutes, us_per_s; lia|].
    intros x Hx; apply in_map_iff in Hx as [r [<- Hr]].
    specialize (Hlate r Hr); unfold start_tod, time_of in Hlate.
    unfold embark_end_tod, five_minutes; unfold us_per_day, us_per_s in *.
    set (t := wall_us (time (start r))) in *.
    pose proof (Z.div_mod t (86400 * 1000000) ltac:(lia)).
    pose proof (Z.mod_pos_bound t (86400 * 1000000) ltac:(lia)).
    rewrite <- (Z.mod_add (t + 5 * 60 * 1000000) (- (t / (86400 * 1000000) + 1))
                  (86400 * 1000000) ltac:(lia)).
    rewrite Z.mod_small; lia. }
  assert (Hes : 86100 * us_per_s <= fold_left Z.min (map start_tod (r0 :: rest)) (86399 * us_per_s)).
  { apply fold_min_lower; [unfold us_per_s; lia|].
    intros x Hx; apply in_map_iff in Hx as [r [<- Hr]]; apply Hlate, Hr. }
  unfold five_minutes, us_per_s in *; lia.
Qed.

Lemma late_rides_window_wraps_witness :
  exists w, average_route_polling_data_float
              [sample_ride 7 (local_time sep3 23 57 0) (local_time sep3 23 59 0) 2 "R2"] = inr w /\
    embark_end w < embark_start w.
Proof.
  destruct (average_route_polling_data_float
              [sample_ride 7 (local_time sep3 23 57 0) (local_time sep3 23 59 0) 2 "R2"])
    as [e|w] eqn:H; [vm_compute in H; discriminate|].
  exists w; split; [reflexivity|].
  refine (proj2 (proj2 (late_rides_window_wraps _ w H _))).
  intros r [<-|[]]; apply Z.leb_le; vm_compute; reflexivity.
Defined.


Lemma window_length_Q r0 rest :
  (0 <= r_length (window Q 0%Q Qplus Qminus Qdiv inject_Z r0 (r0 :: rest)) < 1440)%Q.
Proof.
  cbn [r_length window].
  set (g := r0 :: rest).
  set (m := run_mean Q Qplus Qminus Qdiv inject_Z 0 g 0%Q).
  assert (Hm : (m == inject_Z (sum_seconds g) / inject_Z (Z.of_nat (List.length g)))%Q)
    by (apply run_mean_Q_mean; discriminate).
  pose proof (sum_seconds_bounds g) as [Hs0 Hs1].
  assert (Hn : (0 < Z.of_nat (List.length g))%Z) by (cbn [g List.length]; lia).
  assert (HnQ : (0 < inject_Z (Z.of_nat (List.length g)))%Q)
    by (change 0%Q with (inject_Z 0); rewrite <- Zlt_Qlt; exact Hn).
  assert (Hm0 : (0 <= m)%Q).
  { rewrite Hm; apply Qle_shift_div_l; [exact HnQ|].
    rewrite Qmult_0_l; change 0%Q with (inject_Z 0); rewrite <- Zle_Qle; exact Hs0. }
  assert (Hm1 : (m < 86400)%Q).
  { rewrite Hm; apply Qlt_shift_div_r; [exact HnQ|].
    change 86400%Q with (inject_Z 86400); rewrite <- inject_Z_mult, <- Zlt_Qlt; lia. }
  split.
  - apply Qle_shift_div_l; [reflexivity|]; rewrite Qmult_0_l; exact Hm0.
  - apply Qlt_shift_div_r; [reflexivity|].
    apply (Qlt_le_trans _ 86400); [exact Hm1|]; apply Qle_refl.
Qed.

(** X13: Read over exact rationals, the length in minutes of every route built
    by [async_step_choose_times] lies in [[0, 1440)]: each ride contributes
    its [timedelta.seconds], a number of seconds below one day. *)
Theorem aggregate_lengths_in_day l ws :
  aggregate_routes_Q l = inr ws ->
  forall w, In w ws -> (0 <= r_length w < 1440)%Q.
Proof.
  intros H w Hw; unfold aggregate_routes_Q, aggregate_routes in H.
  apply map_result_Forall2 in H.
  destruct (Forall2_in_right _ _ _ _ H Hw) as [g [_ Hg]].
  apply average_window_gen in Hg as [r0 [rest [_ [_ ->]]]].
  apply window_length_Q.
Qed.

Lemma aggregate_lengths_in_day_witness :
  exists ws, aggregate_routes_Q [morning_ride_1; morning_ride_2; route2_ride] = inr ws /\
    forall w, In w ws -> (0 <= r_length w < 1440)%Q.
Proof.
  destruct (aggregate_routes_Q [morning_ride_1; morning_ride_2; route2_ride])
    as [e|ws] eqn:H; [vm_compute in H; discriminate|].
  exists ws; split; [reflexivity|].
  exact (aggregate_lengths_in_day _ ws H).
Defined.

(** ** config_flow.py: the steps of the flow *)

Lemma login_fails session email pw st o :
  (forall req, session (List.length (calls st)) req = o) ->
  (forall r, o = Response r -> 400 <= status r /\ status r <> 404) ->
  login session email pw st =
  (inl (match o with
        | Response r =>
            if status r =? 400 then SmartTagApiAuthError
            else if (status r =? 401) || (status r =? 403) then SmartTagApiError
            else SmartTagApiNetworkError
        | OtherExc => SmartTagApiError
        | _ => SmartTagApiNetworkError
        end),
   {| tokens := {| access_token := JNull; refresh_token := JNull |};
      calls := calls st ++
        [{| req_method := "POST"; req_path := "user/login"; req_query := [];
            req_headers := None;
            req_data := Some (JObj [("username"%string, JStr email);
                                    ("password"%string, JStr pw)]) |}] |}).
Proof.
  intros Hs Hr; unfold_client; rewrite Hs.
  destruct o as [r| | | |]; try reflexivity.
  destruct (Hr r eq_refl) as [H1 H2].
  destruct (Z.eqb_spec (status r) 400) as [E|N400].
  - rewrite (api_try_pass r) by lia; cbn; rewrite E; reflexivity.
  - destruct (Z.eqb_spec (status r) 401) as [E1|N401];
      [rewrite (api_try_rejected r) by lia; reflexivity|].
    destruct (Z.eqb_spec (status r) 403) as [E3|N403];
      [rewrite (api_try_rejected r) by lia; reflexivity|].
    rewrite (api_try_failed r) by lia; reflexivity.
Qed.

(** X14: When the login of [async_step_user] fails with one of the
    integration's errors (a failing status other than 404, a timeout, a
    connection error or an unexpected exception of the request), the user
    form is shown again with the submitted e-mail as default and one error:
    ["auth"] for a 400 answer, ["unknown"] for 401 or 403 and for an
    unexpected exception, ["connection"] otherwise; the client keeps no token
    and has sent the login request only.  When the answer passes (status
    below 400, or 404) but has no JSON body or no "token", the error of
    reading it is not caught and leaves the step. *)
Theorem user_login_failure_form session Ride_from_dict fl input email pw o :
  input_get CONF_EMAIL input = Some email ->
  input_get CONF_PASSWORD input = Some pw ->
  (forall n req, session n req = o) ->
  ((forall r, o = Response r -> 400 <= status r /\ status r <> 404) ->
   step_user session Ride_from_dict fl (Some input) =
   (Shown (UserForm [("base"%string,
                      match o with
                      | Response r =>
                          if status r =? 400 then "auth"%string
                          else if (status r =? 401) || (status r =? 403) then "unknown"%string
                          else "connection"%string
                      | OtherExc => "unknown"%string
                      | _ => "connection"%string
                      end)] (Some email)),
    {| fl_api_client :=
         Some {| tokens := {| access_token := JNull; refresh_token := JNull |};
                 calls := calls (match fl_api_client fl with
                                 | Some w => w
                                 | None => fresh_client
                                 end) ++
                   [{| req_method := "POST"; req_path := "user/login"; req_query := [];
                       req_headers := None;
                       req_data := Some (JObj [("username"%string, JStr email);
                                               ("password"%string, JStr pw)]) |}] |};
       fl_student_id := fl_student_id fl |})) /\
  (forall r, o = Response r -> status r < 400 \/ status r = 404 -> body r = None ->
   fst (step_user session Ride_from_dict fl (Some input)) = Raised JsonDecodeError) /\
  (forall r j e, o = Response r -> status r < 400 \/ status r = 404 -> body r = Some j ->
   getitem j "token" = inl e ->
   fst (step_user session Ride_from_dict fl (Some input)) = Raised e).
Proof.
  intros He Hp Hs; unfold step_user; rewrite He, Hp; split; [|split].
  - intros Hr.
    rewrite (login_fails session email pw _ o (fun req => Hs _ req) Hr).
    destruct o as [r| | | |]; try reflexivity.
    cbn [flow_error].
    destruct (status r =? 400); [reflexivity|].
    destruct ((status r =? 401) || (status r =? 403)); reflexivity.
  - intros r -> Hst Hb.
    assert (Ha : api_try (Response r) = inr r) by (apply api_try_pass; lia).
    assert (H400 : (status r =? 400) = false) by (apply Z.eqb_neq; lia).
    destruct (fl_api_client fl) as [w|];
      unfold_client; rewrite Hs, Ha; cbn; rewrite H400, Hb; reflexivity.
  - intros r j e -> Hst Hb Ht.
    assert (Ha : api_try (Response r) = inr r) by (apply api_try_pass; lia).
    assert (H400 : (status r =? 400) = false) by (apply Z.eqb_neq; lia).
    destruct (getitem_err_kind _ _ _ Ht) as [-> | ->];
    destruct (fl_api_client fl) as [w|];
      unfold_client; rewrite Hs, Ha; cbn; rewrite H400, Hb; cbn;
      destruct (cookie_refresh r); cbn; rewrite Ht; reflexivity.
Qed.

Lemma user_login_failure_form_witness :
  step_user (answer (resp 400 None None)) (fun _ => inl KeyError)
    {| fl_api_client := None; fl_student_id := None |}
    (Some [("email"%string, "e"%string); ("password"%string, "p"%string)]) =
  (Shown (UserForm [("base"%string, "auth"%string)] (Some "e"%string)),
   {| fl_api_client :=
        Some {| tokens := {| access_token := JNull; refresh_token := JNull |};
                calls := [{| req_method := "POST"; req_path := "user/login"; req_query := [];
                             req_headers := None;
                             req_data := Some (JObj [("username"%string, JStr "e");
                                                     ("password"%string, JStr "p")]) |}] |};
      fl_student_id := None |}).
Proof.
  refine (eq_trans (proj1 (user_login_failure_form (answer (resp 400 None None))
             (fun _ => inl KeyError)
             {| fl_api_client := None; fl_student_id := None |}
             [("email"%string, "e"%string); ("password"%string, "p"%string)] "e" "p"
             (Response (resp 400 None None)) eq_refl eq_refl (fun _ _ => eq_refl)) _) _).
  - intros r Hr; injection Hr as <-; cbn; lia.
  - reflexivity.
Defined.

Lemma get_students_auth_error session st :
  fst (get_students session st) = inl SmartTagApiAuthError <->
  is_None (access_token (tokens st)) = true.
Proof.
  destruct (is_None (access_token (tokens st))) eqn:H.
  - rewrite get_students_no_token by exact H; cbn [fst]; tauto.
  - rewrite get_students_unfold by exact H; cbn [fst].
    split; intros E; [exfalso|discriminate].
    destruct (api_try _) as [e|r] eqn:Ht;
      [injection E as ->; exact (api_try_not_auth _ Ht)|].
    destruct (body r) as [j|]; [|discriminate].
    destruct (py_iter j) eqn:Hp;
      [injection E as ->; apply py_iter_err in Hp; discriminate|].
    apply (map_result_err _ (fun e => e = KeyError \/ e = TypeError)) in E;
      [destruct E; discriminate|apply Student_from_dict_err].
Qed.

(** X15: [async_step_choose_student] without input shows its form with the
    ["auth"] error (and no student) exactly when the client holds no access
    token; the request for the students is then never sent.  With a token,
    no failure of [get_students] is reported as ["auth"]. *)
Theorem choose_student_auth_form session Ride_from_dict fl w :
  fl_api_client fl = Some w ->
  (fst (step_choose_student session Ride_from_dict fl None) =
     Shown (ChooseStudentForm [("base"%string, "auth"%string)] []) <->
   is_None (access_token (tokens w)) = true) /\
  (is_None (access_token (tokens w)) = true ->
   snd (step_choose_student session Ride_from_dict fl None) =
     {| fl_api_client := Some w; fl_student_id := fl_student_id fl |}).
Proof.
  intros Hw; unfold step_choose_student; rewrite Hw.
  rewrite <- (get_students_auth_error session w).
  split.
  - destruct (get_students session w) as [[e|students] w']; cbn [fst].
    + destruct e; cbn; split; congruence.
    + split; congruence.
  - intros H; apply get_students_auth_error in H.
    rewrite (get_students_no_token session w H); reflexivity.
Qed.

Lemma choose_student_auth_form_witness :
  fst (step_choose_student (answer (resp 200 (Some (JArr [])) None)) (fun _ => inl KeyError)
         {| fl_api_client := Some fresh_client; fl_student_id := None |} None) =
    Shown (ChooseStudentForm [("base"%string, "auth"%string)] []).
Proof.
  apply (proj2 (proj1 (choose_student_auth_form (answer (resp 200 (Some (JArr [])) None))
                         (fun _ => inl KeyError)
                         {| fl_api_client := Some fresh_client; fl_student_id := None |}
                         fresh_client eq_refl))).
  reflexivity.
Defined.

Lemma choose_student_no_input_frame session Ride_from_dict fl :
  fl_student_id (snd (step_choose_student session Ride_from_dict fl None)) = fl_student_id fl /\
  (fl_api_client fl <> None ->
   fl_api_client (snd (step_choose_student session Ride_from_dict fl None)) <> None).
Proof.
  unfold step_choose_student.
  destruct (fl_api_client fl) as [w|]; [|auto].
  destruct (get_students session w) as [[e|students] w'].
  - destruct (flow_error e); cbn; split; congruence.
  - cbn; split; congruence.
Qed.

(** X16: [async_step_user] never assigns [_student_id], and always leaves a
    client; so when the attribute was not assigned before,
    [async_step_choose_times] run right after it fails on reading
    [self._student_id] ([AttributeError]) whatever its input. *)
Theorem user_step_leaves_student_unset session Ride_from_dict fl ui ui' :
  fl_student_id (snd (step_user session Ride_from_dict fl ui)) = fl_student_id fl /\
  (fl_student_id fl = None ->
   fst (step_choose_times session Ride_from_dict
          (snd (step_user session Ride_from_dict fl ui)) ui') = AttributeError).
Proof.
  assert (H : fl_student_id (snd (step_user session Ride_from_dict fl ui)) = fl_student_id fl /\
              fl_api_client (snd (step_user session Ride_from_dict fl ui)) <> None).
  { unfold step_user.
    destruct ui as [input|]; [|cbn; split; congruence].
    destruct (input_get CONF_EMAIL input), (input_get CONF_PASSWORD input);
      try (cbn; split; congruence).
    destruct (login session s s0 _) as [[e|[]] w'].
    - destruct (flow_error e); cbn; split; congruence.
    - destruct (choose_student_no_input_frame session Ride_from_dict
                  {| fl_api_client := Some w'; fl_student_id := fl_student_id fl |}) as [H1 H2].
      split; [exact H1|apply H2; discriminate]. }
  destruct H as [Hid Hcl]; split; [exact Hid|intros Hn].
  unfold step_choose_times.
  destruct (fl_api_client (snd (step_user session Ride_from_dict fl ui))); [|congruence].
  rewrite Hid, Hn; reflexivity.
Qed.

Lemma choose_times_frame session Ride_from_dict fl ui w sid :
  fl_api_client fl = Some w -> fl_student_id fl = Some sid ->
  snd (step_choose_times session Ride_from_dict fl ui) =
  {| fl_api_client := Some (snd (get_rides session Ride_from_dict sid 50 w));
     fl_student_id := Some sid |}.
Proof.
  intros H1 H2; unfold step_choose_times; rewrite H1, H2.
  destruct (get_rides session Ride_from_dict sid 50 w) as [[e|rides] w']; cbn.
  - destruct (flow_error e); cbn; reflexivity.
  - destruct (aggregate_routes_float rides); reflexivity.
Qed.

(** X17: Submitting [{"student": s}] to [async_step_choose_student] stores [s]
    as [_student_id] and goes on to [async_step_choose_times]: with an
    access token the client sends exactly one request, for the first 50
    rides of student [s], and keeps its tokens; without one it sends
    nothing and the times form is shown with the ["auth"] error and no
    route. *)
Theorem choose_student_selects session Ride_from_dict fl w input s :
  fl_api_client fl = Some w ->
  input_get CONF_STUDENT input = Some s ->
  (is_None (access_token (tokens w)) = false ->
   snd (step_choose_student session Ride_from_dict fl (Some input)) =
   {| fl_api_client :=
        Some {| tokens := tokens w;
                calls := calls w ++
                  [{| req_method := "GET"; req_path := "student/riding-activity";
                      req_query := [("studentid"%string, JStr s); ("pageIndex"%string, JNum 0);
                                    ("pageSize"%string, JNum 50)];
                      req_headers := Some (access_token (tokens w)); req_data := None |}] |};
      fl_student_id := Some s |}) /\
  (is_None (access_token (tokens w)) = true ->
   step_choose_student session Ride_from_dict fl (Some input) =
   (Shown (ChooseTimesForm [("base"%string, "auth"%string)] []),
    {| fl_api_client := Some w; fl_student_id := Some s |})).
Proof.
  intros Hw Hs; unfold step_choose_student; rewrite Hw, Hs; split; intros Ht.
  - rewrite (choose_times_frame _ _ {| fl_api_client := Some w; fl_student_id := Some s |}
               _ w s eq_refl eq_refl).
    rewrite (get_rides_unfold _ _ _ _ _ Ht); reflexivity.
  - unfold step_choose_times; cbn [fl_api_client fl_student_id].
    rewrite (get_rides_no_token _ _ _ _ _ Ht); reflexivity.
Qed.

Lemma choose_student_selects_witness :
  snd (step_choose_student (answer (resp 500 None None)) (fun _ => inl KeyError)
         {| fl_api_client := Some logged_in; fl_student_id := None |}
         (Some [("student"%string, "42"%string)])) =
  {| fl_api_client :=
       Some {| tokens := tokens logged_in;
               calls := [{| req_method := "GET"; req_path := "student/riding-activity";
                            req_query := [("studentid"%string, JStr "42");
                                          ("pageIndex"%string, JNum 0);
                                          ("pageSize"%string, JNum 50)];
                            req_headers := Some (JStr "a"); req_data := None |}] |};
     fl_student_id := Some "42"%string |}.
Proof.
  exact (proj1 (choose_student_selects (answer (resp 500 None None)) (fun _ => inl KeyError)
                  {| fl_api_client := Some logged_in; fl_student_id := None |} logged_in
                  [("student"%string, "42"%string)] "42" eq_refl eq_refl) eq_refl).
Defined.

Lemma aggregate_float_route_ids l :
  forallb in_range l = true ->
  exists routes, aggregate_routes_float l = inr routes /\
    map r_id routes = first_occurrences (map route_id l).
Proof.
  intros Hok; unfold aggregate_routes_float, aggregate_routes.
  rewrite group_by_route_first, map_map; cbn [snd].
  assert (Hks : forall k, In k (first_occurrences (map route_id l)) ->
                exists r, In r l /\ route_id r = k).
  { intros k Hk; apply (proj2 (first_occurrences_spec _)), in_map_iff in Hk.
    destruct Hk as [r [Hr Hin]]; exists r; auto. }
  induction (first_occurrences (map route_id l)) as [|k ks IH];
    [exists []; split; reflexivity|].
  destruct (rides_of_nonempty l k (Hks k (or_introl eq_refl))) as [r0 [rest Hg]].
  destruct IH as [routes [Hm Hids]]; [intros k' Hk'; apply Hks; right; exact Hk'|].
  pose proof (rides_of_in_range l k Hok) as Hin; rewrite Hg in Hin.
  assert (Hr0 : route_id r0 = k)
    by (apply (proj1 (rides_of_In l k r0)); rewrite Hg; left; reflexivity).
  exists (window float 0%float PrimFloat.add PrimFloat.sub PrimFloat.div float_of_Z
            r0 (r0 :: rest) :: routes).
  cbn [map map_result]; rewrite Hg, (average_ok _ _ _ _ _ _ r0 rest Hin), Hm.
  split; [reflexivity|cbn; rewrite Hr0, Hids; reflexivity].
Qed.

(** X18: What [async_step_choose_times] shows once the rides are fetched: when
    every ride's times can be shifted, the times form lists one route per
    route id, in the order in which the ids first occur among the rides;
    a ride whose times overflow makes the step raise [OverflowError]; a
    smart-tag error of the fetch is shown on the form, with no route. *)
Theorem choose_times_routes session Ride_from_dict fl w sid ui res w' :
  fl_api_client fl = Some w -> fl_student_id fl = Some sid ->
  get_rides session Ride_from_dict sid 50 w = (res, w') ->
  (forall rides, res = inr rides -> forallb in_range rides = true ->
   exists routes,
     fst (step_choose_times session Ride_from_dict fl ui) =
       Shown (ChooseTimesForm [] routes) /\
     map r_id routes = first_occurrences (map route_id rides)) /\
  (forall rides, res = inr rides -> forallb in_range rides = false ->
   fst (step_choose_times session Ride_from_dict fl ui) = Raised OverflowError) /\
  (forall e m, res = inl e -> flow_error e = Some m ->
   fst (step_choose_times session Ride_from_dict fl ui) =
     Shown (ChooseTimesForm [("base"%string, m)] [])).
Proof.
  intros Hw Hs Hg; unfold step_choose_times; rewrite Hw, Hs, Hg.
  split; [|split].
  - intros rides -> Hok.
    destruct (aggregate_float_route_ids rides Hok) as [routes [Ha Hids]].
    exists routes; rewrite Ha; split; [reflexivity|exact Hids].
  - intros rides -> Hbad.
    destruct (aggregate_spec float 0%float PrimFloat.add PrimFloat.sub PrimFloat.div
                float_of_Z rides) as [ks [_ [_ [_ Hov]]]].
    change (aggregate_routes float 0%float PrimFloat.add PrimFloat.sub PrimFloat.div
              float_of_Z rides) with (aggregate_routes_float rides) in Hov.
    rewrite (Hov Hbad); reflexivity.
  - intros e m -> Hm; cbn; rewrite Hm; reflexivity.
Qed.

Lemma choose_times_routes_witness :
  exists routes,
    fst (step_choose_times
           (answer (resp 200 (Some (JObj [("data"%string, JArr [JNull; JNull; JNull])])) None))
           (fun _ => inr morning_ride_1)
           {| fl_api_client := Some logged_in; fl_student_id := Some "42"%string |} None) =
      Shown (ChooseTimesForm [] routes) /\
    map r_id routes = first_occurrences (map route_id [morning_ride_1; morning_ride_1; morning_ride_1]).
Proof.
  refine (proj1 (choose_times_routes
                   (answer (resp 200 (Some (JObj [("data"%string, JArr [JNull; JNull; JNull])])) None))
                   (fun _ => inr morning_ride_1)
                   {| fl_api_client := Some logged_in; fl_student_id := Some "42"%string |}
                   logged_in "42" None
                   (inr [morning_ride_1; morning_ride_1; morning_ride_1])
                   (snd (get_rides
                           (answer (resp 200 (Some (JObj [("data"%string,
                                                             JArr [JNull; JNull; JNull])])) None))
                           (fun _ => inr morning_ride_1) "42" 50 logged_in))
                   eq_refl eq_refl _) _ eq_refl _).
  - vm_compute; reflexivity.
  - vm_compute; reflexivity.
Defined.

Lemma login_ok session email pw st r j t :
  (forall req, session (List.length (calls st)) req = Response r) ->
  status r < 400 \/ status r = 404 ->
  body r = Some j -> getitem j "token" = inr t ->
  login session email pw st =
  (inr tt,
   {| tokens := {| access_token := t;
                   refresh_token := match cookie_refresh r with
                                    | Some c => JStr (unquote c)
                                    | None => JNull
                                    end |};
      calls := calls st ++
        [{| req_method := "POST"; req_path := "user/login"; req_query := [];
            req_headers := None;
            req_data := Some (JObj [("username"%string, JStr email);
                                    ("password"%string, JStr pw)]) |}] |}).
Proof.
  intros Hs Hst Hb Ht.
  assert (Ha : api_try (Response r) = inr r) by (apply api_try_pass; lia).
  assert (H400 : (status r =? 400) = false) by (apply Z.eqb_neq; lia).
  unfold_client; rewrite Hs, Ha; cbn; rewrite H400, Hb; cbn.
  destruct (cookie_refresh r); cbn; rewrite Ht; reflexivity.
Qed.

(** X19: A first [async_step_user] whose login succeeds goes on to
    [async_step_choose_student] with the token the login returned: if the
    answer's ["token"] is [null], the student form is shown with the
    ["auth"] error and no further request; otherwise the second request is
    the student list, sent with that token. *)
Theorem user_login_lists_students session Ride_from_dict input email pw r j t :
  input_get CONF_EMAIL input = Some email ->
  input_get CONF_PASSWORD input = Some pw ->
  (forall req, session 0%nat req = Response r) ->
  status r < 400 \/ status r = 404 ->
  body r = Some j -> getitem j "token" = inr t ->
  (is_None t = true ->
   step_user session Ride_from_dict {| fl_api_client := None; fl_student_id := None |}
     (Some input) =
   (Shown (ChooseStudentForm [("base"%string, "auth"%string)] []),
    {| fl_api_client :=
         Some {| tokens := {| access_token := t;
                              refresh_token := match cookie_refresh r with
                                               | Some c => JStr (unquote c)
                                               | None => JNull
                                               end |};
                 calls := [{| req_method := "POST"; req_path := "user/login"; req_query := [];
                              req_headers := None;
                              req_data := Some (JObj [("username"%string, JStr email);
                                                      ("password"%string, JStr pw)]) |}] |};
       fl_student_id := None |})) /\
  (is_None t = false ->
   exists res,
   step_user session Ride_from_dict {| fl_api_client := None; fl_student_id := None |}
     (Some input) =
   (res,
    {| fl_api_client :=
         Some {| tokens := {| access_token := t;
                              refresh_token := match cookie_refresh r with
                                               | Some c => JStr (unquote c)
                                               | None => JNull
                                               end |};
                 calls := [{| req_method := "POST"; req_path := "user/login"; req_query := [];
                              req_headers := None;
                              req_data := Some (JObj [("username"%string, JStr email);
                                                      ("password"%string, JStr pw)]) |};
                           {| req_method := "GET"; req_path := "parent/all-students";
                              req_query := []; req_headers := Some t; req_data := None |}] |};
       fl_student_id := None |})).
Proof.
  intros He Hp Hs Hst Hb Ht; unfold step_user; cbn [fl_api_client fl_student_id].
  rewrite He, Hp, (login_ok session email pw fresh_client r j t Hs Hst Hb Ht).
  unfold step_choose_student; cbn [fl_api_client fl_student_id]; split; intros Hn.
  - rewrite get_students_no_token by exact Hn; reflexivity.
  - rewrite get_students_unfold by exact Hn; cbv zeta.
    cbn beta iota.
    lazymatch goal with
    | |- exists res, match ?x with _ => _ end = _ => destruct x as [e|students]
    end.
    + destruct (flow_error e); eexists; reflexivity.
    + eexists; reflexivity.
Qed.

Lemma user_login_lists_students_witness :
  step_user (answer (resp 200 (Some (JObj [("token"%string, JNull)])) None))
    (fun _ => inl KeyError) {| fl_api_client := None; fl_student_id := None |}
    (Some [("email"%string, "e"%string); ("password"%string, "p"%string)]) =
  (Shown (ChooseStudentForm [("base"%string, "auth"%string)] []),
   {| fl_api_client :=
        Some {| tokens := {| access_token := JNull; refresh_token := JNull |};
                calls := [{| req_method := "POST"; req_path := "user/login"; req_query := [];
                             req_headers := None;
                             req_data := Some (JObj [("username"%string, JStr "e");
                                                     ("password"%string, JStr "p")]) |}] |};
      fl_student_id := None |}).
Proof.
  exact (proj1 (user_login_lists_students
                  (answer (resp 200 (Some (JObj [("token"%string, JNull)])) None))
                  (fun _ => inl KeyError)
                  [("email"%string, "e"%string); ("password"%string, "p"%string)] "e" "p"
                  (resp 200 (Some (JObj [("token"%string, JNull)])) None)
                  (JObj [("token"%string, JNull)]) JNull
                  eq_refl eq_refl (fun _ => eq_refl) (or_introl eq_refl) eq_refl eq_refl)
           eq_refl).
Defined.

(** X20: A successful [refresh_access_token] sends one request carrying both
    tokens, takes the new access token from the answer's ["token"], and
    replaces the refresh token only when the answer sets the
    [refreshToken] cookie: otherwise the old refresh token is kept. *)
Theorem refresh_success session st r j t :
  is_None (access_token (tokens st)) = false ->
  is_None (refresh_token (tokens st)) = false ->
  (forall req, session (List.length (calls st)) req = Response r) ->
  status r < 400 -> body r = Some j -> getitem j "token" = inr t ->
  refresh_access_token session st =
  (inr tt,
   {| tokens := {| access_token := t;
                   refresh_token := match cookie_refresh r with
                                    | Some c => JStr (unquote c)
                                    | None => refresh_token (tokens st)
                                    end |};
      calls := calls st ++
        [{| req_method := "POST"; req_path := "user/refresh"; req_query := [];
            req_headers := None;
            req_data := Some (JObj [("token"%string, access_token (tokens st));
                                    ("refreshToken"%string, refresh_token (tokens st))]) |}] |}).
Proof.
  intros Ha Hr Hs Hst Hb Ht.
  assert (Hp : api_try (Response r) = inr r) by (apply api_try_pass; lia).
  assert (Hok : ok r = true) by (unfold ok; apply Z.ltb_lt; exact Hst).
  unfold_client; rewrite Ha, Hr; cbn; rewrite Hs, Hp; cbn; rewrite Hok, Hb; cbn.
  destruct (cookie_refresh r); cbn; rewrite Ht; reflexivity.
Qed.

Lemma refresh_success_witness :
  refresh_access_token (answer (resp 200 (Some (JObj [("token"%string, JStr "t2")])) None))
    logged_in =
  (inr tt,
   {| tokens := {| access_token := JStr "t2"; refresh_token := JStr "r" |};
      calls := [{| req_method := "POST"; req_path := "user/refresh"; req_query := [];
                   req_headers := None;
                   req_data := Some (JObj [("token"%string, JStr "a");
                                           ("refreshToken"%string, JStr "r")]) |}] |}).
Proof.
  exact (refresh_success (answer (resp 200 (Some (JObj [("token"%string, JStr "t2")])) None))
           logged_in (resp 200 (Some (JObj [("token"%string, JStr "t2")])) None)
           (JObj [("token"%string, JStr "t2")]) (JStr "t2")
           eq_refl eq_refl (fun _ => eq_refl) eq_refl eq_refl eq_refl).
Defined.
